(** * boltzgen web station: the job pipeline of [web_ui.py]

    A shallow embedding of the three functions of [web_ui.py]
    ([get_interactive_3dmol_iframe], [generate_config_yaml] and
    [run_boltzgen_task]) and of the hover callbacks that the generated
    viewer page installs, followed by the properties of the pipeline.

    Conventions.
    - A Python [str] is a [string]: the bytes of its UTF-8 encoding.  Every
      character the code searches for or inserts is ASCII, so the byte-wise
      operations below agree with Python's on code points.
    - Python integers are [Z].
    - Python dictionaries keep insertion order: they are association lists.
    - The file system, the console and the list of launched child processes
      form an explicit [world] that is threaded through the [Py] monad;
      a computation either returns a value or raises an exception.
    - A file is a location with a text.  Permissions, symbolic links, [..]
      components and the codec of text files are not modelled: every file
      can be read and is read as the text it holds.  A file is opened by
      its name as it is written: the empty name opens nothing, and a name
      that ends in a slash or in [.] does not open a file.
    - What the host provides (the tool [boltzgen], PyYAML's dumper, the
      wording of exceptions) is a parameter, [host]; the identifier drawn
      by [uuid.uuid4()] is an argument of [run_boltzgen_task]. *)

From Stdlib Require Import String Ascii List ZArith NArith Lia Bool.
From Stdlib Require Import DecimalString DecimalZ.
Import ListNotations.
Open Scope string_scope.

(** ** Python strings *)

Module PyStr.

Definition LF : ascii := "010"%char.
Definition CR : ascii := "013"%char.
Definition TAB : ascii := "009"%char.
Definition SPACE : ascii := " "%char.
Definition QUOTE : ascii := "'"%char.
Definition DQUOTE : ascii := "034"%char.
Definition BACKSLASH : ascii := "\"%char.

Definition chr (a : ascii) : string := String a EmptyString.

(** Truth value of a string: [bool(s)], false exactly for the empty one. *)
Definition truthy (s : string) : bool :=
  match s with
  | EmptyString => false
  | String _ _ => true
  end.

(** [s.replace(old, new)] for a one-character [old], the only form the
    source uses. *)
Fixpoint replace (old : ascii) (new : string) (s : string) : string :=
  match s with
  | EmptyString => EmptyString
  | String a t =>
      if Ascii.eqb a old then new ++ replace old new t
      else String a (replace old new t)
  end.

Fixpoint rev_onto (s acc : string) : string :=
  match s with
  | EmptyString => acc
  | String a t => rev_onto t (String a acc)
  end.

Definition rev (s : string) : string := rev_onto s EmptyString.

Fixpoint strip_prefix (p s : string) : option string :=
  match p, s with
  | EmptyString, _ => Some s
  | String a p', String b s' =>
      if Ascii.eqb a b then strip_prefix p' s' else None
  | String _ _, EmptyString => None
  end.

Definition starts_with (p s : string) : bool :=
  match strip_prefix p s with
  | Some _ => true
  | None => false
  end.

Definition ends_with (p s : string) : bool := starts_with (rev p) (rev s).

Fixpoint contains (a : ascii) (s : string) : bool :=
  match s with
  | EmptyString => false
  | String b t => Ascii.eqb a b || contains a t
  end.

Definition of_bytes (l : list nat) : string :=
  string_of_list_ascii (map ascii_of_nat l).

(** The characters for which [str.isspace] holds (CPython's
    [_PyUnicode_IsWhitespace]), each as its UTF-8 encoding:
    U+0009..U+000D, U+001C..U+001F, U+0020, U+0085, U+00A0, U+1680,
    U+2000..U+200A, U+2028, U+2029, U+202F, U+205F, U+3000. *)
Definition whitespace : list string :=
  map of_bytes
    [ [9]; [10]; [11]; [12]; [13]; [28]; [29]; [30]; [31]; [32];
      [194; 133]; [194; 160]; [225; 154; 128];
      [226; 128; 128]; [226; 128; 129]; [226; 128; 130]; [226; 128; 131];
      [226; 128; 132]; [226; 128; 133]; [226; 128; 134]; [226; 128; 135];
      [226; 128; 136]; [226; 128; 137]; [226; 128; 138];
      [226; 128; 168]; [226; 128; 169]; [226; 128; 175];
      [226; 129; 159]; [227; 128; 128] ].

(** Remove one leading whitespace character, if there is one. *)
Fixpoint drop_one (ws : list string) (s : string) : option string :=
  match ws with
  | [] => None
  | w :: ws' =>
      match strip_prefix w s with
      | Some r => Some r
      | None => drop_one ws' s
      end
  end.

Fixpoint lstrip_fuel (ws : list string) (n : nat) (s : string) : string :=
  match n with
  | O => s
  | S n' =>
      match drop_one ws s with
      | Some r => lstrip_fuel ws n' r
      | None => s
      end
  end.

(** [s.lstrip()]: every step removes at least one byte, so [length s]
    steps are enough. *)
Definition lstrip (s : string) : string :=
  lstrip_fuel whitespace (String.length s) s.

(** [s.rstrip()]: UTF-8 is self-synchronising, so a trailing whitespace
    character is a leading reversed one of the reversed string. *)
Definition rstrip (s : string) : string :=
  rev (lstrip_fuel (map rev whitespace) (String.length s) (rev s)).

(** [s.strip()] *)
Definition strip (s : string) : string := rstrip (lstrip s).

(** [sep.join(l)] *)
Definition join (sep : string) (l : list string) : string :=
  String.concat sep l.

(** [str(n)] and [f"{n}"] for an integer. *)
Definition str_int (n : Z) : string :=
  NilEmpty.string_of_int (Z.to_int n).

(** [s[:n]] *)
Definition take (n : nat) (s : string) : string := String.substring 0 n s.

(** [html.escape(s)] (with its default [quote=True]). *)
Definition html_escape (s : string) : string :=
  replace QUOTE "&#x27;"
    (replace DQUOTE "&quot;"
       (replace ">" "&gt;"
          (replace "<" "&lt;"
             (replace "&" "&amp;" s)))).

End PyStr.

(** ** The script context the structure text is written into *)

Module Js.
Import PyStr.

(** Where a single-quoted ECMAScript string literal ends.  [scan_sq s]
    reads [s] from just after the opening quote: a backslash takes the
    next character with it (and a whole CR LF pair, as a line
    continuation), an unescaped quote closes the literal and what follows
    it is read as program text again, and an unescaped line terminator or
    the end of the input leaves the literal unterminated.  Whether the
    digits after [\x] or [\u] are well formed plays no part in where the
    literal ends and is not checked. *)
Inductive scan : Type :=
| Closed (rest : string)
| Unterminated.

Fixpoint scan_sq (s : string) : scan :=
  match s with
  | EmptyString => Unterminated
  | String a t =>
      if Ascii.eqb a QUOTE then Closed t
      else if Ascii.eqb a LF || Ascii.eqb a CR then Unterminated
      else if Ascii.eqb a BACKSLASH then
        match t with
        | EmptyString => Unterminated
        | String b t' =>
            if Ascii.eqb b CR then
              match t' with
              | String c t'' => if Ascii.eqb c LF then scan_sq t'' else scan_sq t'
              | EmptyString => scan_sq t'
              end
            else scan_sq t'
        end
      else scan_sq t
  end.

(** The text [payload], written between the quotes of a literal that the
    template closes itself before [rest], stays inside that literal: the
    first closing quote the scanner meets is the template's own.  This is
    about the text of a script as ECMAScript reads it; where the script
    element itself ends in the page is a matter of the markup
    ([Html.script_data]). *)
Definition confined (payload rest : string) : Prop :=
  scan_sq (payload ++ String QUOTE rest) = Closed rest.

(** Every quote of [s] directly follows a backslash ([prev] tells whether
    the character before [s] was one). *)
Fixpoint quotes_prefixed (prev : bool) (s : string) : bool :=
  match s with
  | EmptyString => true
  | String a t =>
      (if Ascii.eqb a QUOTE then prev else true)
      && quotes_prefixed (Ascii.eqb a BACKSLASH) t
  end.

End Js.

(** ** The frame attribute the page is written into *)

Module Html.
Import PyStr.

(** What a browser makes of an attribute value that [html.escape] wrote:
    the five character references it uses are turned back into their
    characters. *)
Definition references : list (string * ascii) :=
  [ ("&amp;", "&"%char); ("&lt;", "<"%char); ("&gt;", ">"%char);
    ("&quot;", DQUOTE); ("&#x27;", QUOTE) ].

Fixpoint dereference (refs : list (string * ascii)) (s : string) : option (ascii * string) :=
  match refs with
  | [] => None
  | (r, c) :: refs' =>
      match strip_prefix r s with
      | Some t => Some (c, t)
      | None => dereference refs' s
      end
  end.

Fixpoint unescape_fuel (n : nat) (s : string) : string :=
  match n with
  | O => s
  | S n' =>
      match dereference references s with
      | Some (c, t) => String c (unescape_fuel n' t)
      | None =>
          match s with
          | EmptyString => EmptyString
          | String a t => String a (unescape_fuel n' t)
          end
      end
  end.

Definition html_unescape (s : string) : string := unescape_fuel (String.length s) s.

(** The reference [html.escape] writes for a character, or the character. *)
Definition escape_char (a : ascii) : string :=
  if Ascii.eqb a "&" then "&amp;"
  else if Ascii.eqb a "<" then "&lt;"
  else if Ascii.eqb a ">" then "&gt;"
  else if Ascii.eqb a DQUOTE then "&quot;"
  else if Ascii.eqb a QUOTE then "&#x27;"
  else chr a.

Fixpoint escape_each (s : string) : string :=
  match s with
  | EmptyString => EmptyString
  | String a t => escape_char a ++ escape_each t
  end.


End Html.

(** ** The hover callbacks of the viewer page

    The two functions handed to [viewer.setHoverable] (lines 68-93 of
    [web_ui.py], JavaScript inside the page template).  An atom is an object
    of the viewer's model whose [label] property is either undefined
    ([None]) or a label object; the viewer keeps the labels it shows in an
    array.  [addLabel] makes a new label object, appends it to that array and
    returns it; [removeLabel] takes the first array element identical to its
    argument out of the array.  Object identity of labels is their [lid]. *)

Module Hover.
Import PyStr.

Record Label : Type := mkLabel
  { lid : nat;
    text : string;
    position : nat;              (* the atom the label is anchored at *)
    backgroundColor : string;
    fontColor : string;
    fontSize : Z;
    borderRadius : Z;
    offset : Z * Z }.

Record Atom : Type := mkAtom
  { resn : string;
    resi : Z;
    chain : string;
    label : option Label }.

Record Viewer : Type := mkViewer
  { labels : list Label;
    next_lid : nat }.

(** The page state the callbacks act on: the atoms of the loaded model,
    addressed by their index, and the viewer. *)
Record Page : Type := mkPage
  { atoms : list Atom;
    viewer : Viewer }.

Definition addLabel (txt : string) (pos : nat) (v : Viewer) : Label * Viewer :=
  let l := mkLabel (next_lid v) txt pos "rgba(0,0,0, 0.7)" "white" 12 4 (0, -10)%Z in
  (l, mkViewer (labels v ++ [l]) (S (next_lid v))).

Fixpoint remove_first (n : nat) (ls : list Label) : list Label :=
  match ls with
  | [] => []
  | l :: r => if Nat.eqb (lid l) n then r else l :: remove_first n r
  end.

Definition removeLabel (l : Label) (v : Viewer) : Viewer :=
  mkViewer (remove_first (lid l) (labels v)) (next_lid v).

Fixpoint set_nth {A : Type} (i : nat) (x : A) (l : list A) : list A :=
  match l, i with
  | [], _ => []
  | _ :: r, O => x :: r
  | y :: r, S j => y :: set_nth j x r
  end.

Definition set_label (a : Atom) (l : option Label) : Atom :=
  mkAtom (resn a) (resi a) (chain a) l.

(** [atom.resn + " " + atom.resi], then [":" + atom.chain] when the chain
    is a non-empty string. *)
Definition labelText (a : Atom) : string :=
  let t := resn a ++ " " ++ str_int (resi a) in
  if truthy (chain a) then t ++ ":" ++ chain a else t.

(** The hover callback (lines 69-85), on the atom of index [i]. *)
Definition hover (i : nat) (p : Page) : Page :=
  match nth_error (atoms p) i with
  | None => p
  | Some atom =>
      match label atom with
      | None =>
          let (l, v) := addLabel (labelText atom) i (viewer p) in
          mkPage (set_nth i (set_label atom (Some l)) (atoms p)) v
      | Some _ => p
      end
  end.

(** The unhover callback (lines 86-92). *)
Definition unhover (i : nat) (p : Page) : Page :=
  match nth_error (atoms p) i with
  | None => p
  | Some atom =>
      match label atom with
      | Some l =>
          mkPage (set_nth i (set_label atom None) (atoms p))
                 (removeLabel l (viewer p))
      | None => p
      end
  end.

Inductive event : Type :=
| Enter (i : nat)
| Leave (i : nat).

Definition step (p : Page) (e : event) : Page :=
  match e with
  | Enter i => hover i p
  | Leave i => unhover i p
  end.

Definition run (es : list event) (p : Page) : Page := fold_left step es p.

(** The page right after [viewer.addModel]: no atom has a label property
    and the viewer shows no label. *)
Definition loaded (model : list (string * Z * string)) : Page :=
  mkPage (map (fun '(rn, ri, ch) => mkAtom rn ri ch None) model)
         (mkViewer [] 0).

(** A page the user can bring about: some model, then pointer events. *)
Inductive reachable : Page -> Prop :=
| reach_loaded model : reachable (loaded model)
| reach_step p e : reachable p -> reachable (step p e).

(** The labels the viewer shows at the atom of index [i]. *)
Definition live (i : nat) (p : Page) : nat :=
  List.length (filter (fun l => Nat.eqb (position l) i) (labels (viewer p))).

Definition labeled (i : nat) (p : Page) : bool :=
  match nth_error (atoms p) i with
  | Some a => match label a with Some _ => true | None => false end
  | None => false
  end.

(** The invariant of the page: label identities are fresh and distinct,
    and the viewer shows exactly the labels the atoms hold. *)
Record consistent (p : Page) : Prop := mkConsistent
  { fresh_ids : forall l, In l (labels (viewer p)) -> lid l < next_lid (viewer p);
    distinct_ids : NoDup (map lid (labels (viewer p)));
    held_shown : forall i a l,
        nth_error (atoms p) i = Some a -> label a = Some l ->
        In l (labels (viewer p)) /\ position l = i;
    shown_held : forall l,
        In l (labels (viewer p)) ->
        exists a, nth_error (atoms p) (position l) = Some a /\ label a = Some l }.

End Hover.

(** ** Paths, the file system and the [Py] monad *)

Module Os.
Import PyStr.

(** A [pathlib] path: whether it starts at the root, and its components. *)
Record PurePath : Type := mkPath
  { anchored : bool;
    parts : list string }.

Fixpoint split (sep : ascii) (s : string) : list string :=
  match s with
  | EmptyString => [EmptyString]
  | String a t =>
      if Ascii.eqb a sep then EmptyString :: split sep t
      else match split sep t with
           | h :: r => String a h :: r
           | [] => [chr a]
           end
  end.

(** [Path(s)] on a POSIX system: empty components and [.] components are
    dropped. *)
Definition Path (s : string) : PurePath :=
  mkPath (starts_with "/" s)
         (filter (fun c => negb (String.eqb c "" || String.eqb c "."))
                 (split "/" s)).

(** [p / s] *)
Definition div (p : PurePath) (s : string) : PurePath :=
  let q := Path s in
  if anchored q then q else mkPath (anchored p) (parts p ++ parts q)%list.

(** The entry [nm] of the directory [p], as [glob] and [iterdir] build
    it: the name is appended as one component and not parsed. *)
Definition child (p : PurePath) (nm : string) : PurePath :=
  mkPath (anchored p) (parts p ++ [nm])%list.

(** [p.name] *)
Definition name (p : PurePath) : string := last (parts p) "".

(** [str(p)] *)
Definition str (p : PurePath) : string :=
  match anchored p, parts p with
  | false, [] => "."
  | false, l => join "/" l
  | true, l => "/" ++ join "/" l
  end.

(** A place in the file system: the components from the root. *)
Definition location : Type := list string.

(** A directory, or a file with its text. *)
Inductive node : Type :=
| Dir
| File (data : string).

(** The entries other than the root, in the order in which the system
    enumerates them. *)
Definition filesys : Type := list (location * node).

Definition loc_eqb (a b : location) : bool :=
  if list_eq_dec string_dec a b then true else false.

Fixpoint entry (fs : filesys) (k : location) : option node :=
  match fs with
  | [] => None
  | (k', n) :: r => if loc_eqb k' k then Some n else entry r k
  end.

Definition node_at (fs : filesys) (k : location) : option node :=
  match k with
  | [] => Some Dir
  | _ => entry fs k
  end.

Definition is_dir (fs : filesys) (k : location) : bool :=
  match node_at fs k with
  | Some Dir => true
  | _ => false
  end.

Fixpoint put (k : location) (n : node) (fs : filesys) : filesys :=
  match fs with
  | [] => [(k, n)]
  | (k', n') :: r =>
      if loc_eqb k' k then (k, n) :: r else (k', n') :: put k n r
  end.

Definition parent (k : location) : location := removelast k.

(** The entry name of [k] when [k] lies directly in [dir]. *)
Definition child_name (dir k : location) : option string :=
  match k with
  | [] => None
  | _ => if loc_eqb (parent k) dir then Some (last k "") else None
  end.

Inductive exn : Type :=
| FileNotFoundError (filename : string)
| FileExistsError (filename : string)
| IsADirectoryError (filename : string)
| NotADirectoryError (filename : string)
| SameFileError (src dst : string)
| OSError (what : string).

Record CompletedProcess : Type := mkProcess
  { returncode : Z;
    stdout : string;
    stderr : string }.

(** The data handed to [yaml.dump]: strings, booleans, lists and
    dictionaries (in insertion order). *)
#[warnings="-register-all"]
Inductive yaml : Type :=
| YStr (s : string)
| YBool (b : bool)
| YSeq (items : list yaml)
| YMap (fields : list (string * yaml)).

(** What the machine the server runs on provides and the source only
    calls: the text of an exception ([str(e)]), PyYAML's
    [yaml.dump(data, sort_keys=False)], and the programs on the search
    path, which get an argument vector and a working directory, may change
    the files, and either cannot be started or run to completion. *)
Record host : Type := mkHost
  { str_exn : exn -> string;
    yaml_dump : yaml -> string;
    exec : list string -> location -> filesys -> (exn + CompletedProcess) * filesys }.

Record world : Type := mkWorld
  { cwd : location;                  (* working directory of the server *)
    files : filesys;
    console : list string;           (* lines printed, oldest first *)
    spawned : list (list string) }.  (* subprocess.run calls, oldest first *)

Inductive result (A : Type) : Type :=
| Return (a : A)
| Raise (e : exn).
Arguments Return {A} a.
Arguments Raise {A} e.

Definition Py (A : Type) : Type := world -> result A * world.

Definition ret {A : Type} (a : A) : Py A := fun w => (Return a, w).

Definition raise {A : Type} (e : exn) : Py A := fun w => (Raise e, w).

Definition bind {A B : Type} (c : Py A) (k : A -> Py B) : Py B :=
  fun w =>
    match c w with
    | (Return a, w') => k a w'
    | (Raise e, w') => (Raise e, w')
    end.

(** [try: c  except Exception as e: h e] *)
Definition try_except {A : Type} (c : Py A) (h : exn -> Py A) : Py A :=
  fun w =>
    match c w with
    | (Return a, w') => (Return a, w')
    | (Raise e, w') => h e w'
    end.

(** [try: x = c  except Exception as e: ...] with a handler that leaves
    the function: the caller branches on what happened. *)
Definition attempt {A : Type} (c : Py A) : Py (exn + A) :=
  fun w =>
    match c w with
    | (Return a, w') => (Return (inr a), w')
    | (Raise e, w') => (Return (inl e), w')
    end.

Definition gets {A : Type} (f : world -> A) : Py A := fun w => (Return (f w), w).

Definition set_files (fs : filesys) : Py unit :=
  fun w => (Return tt, mkWorld (cwd w) fs (console w) (spawned w)).

(** [p.absolute()] *)
Definition absolute (w : world) (p : PurePath) : PurePath :=
  if anchored p then p else mkPath true (cwd w ++ parts p)%list.

Definition locate (w : world) (p : PurePath) : location := parts (absolute w p).

(** [p.exists()] *)
Definition exists_ (p : PurePath) (w : world) : bool :=
  match node_at (files w) (locate w p) with
  | Some _ => true
  | None => false
  end.

(** [p.glob("*" + suffix)] as a list: the entries of the directory [p]
    whose name ends in [suffix], in enumeration order; nothing, and no
    exception, when [p] is not a directory. *)
Definition glob (p : PurePath) (suffix : string) (w : world) : list PurePath :=
  if is_dir (files w) (locate w p) then
    flat_map
      (fun '(k, _) =>
         match child_name (locate w p) k with
         | Some nm => if ends_with suffix nm then [child p nm] else []
         | None => []
         end)
      (files w)
  else [].

(** [os.mkdir(p)] *)
Definition os_mkdir (p : PurePath) : Py unit :=
  fun w =>
    let k := locate w p in
    match node_at (files w) k with
    | Some _ => raise (FileExistsError (str p)) w
    | None =>
        match node_at (files w) (parent k) with
        | Some Dir => set_files (files w ++ [(k, Dir)])%list w
        | Some (File _) => raise (NotADirectoryError (str p)) w
        | None => raise (FileNotFoundError (str p)) w
        end
    end.

(** [p.mkdir(exist_ok=True)]: the error of [os.mkdir] is dropped when [p]
    is a directory already. *)
Definition mkdir_exist_ok (p : PurePath) : Py unit :=
  try_except (os_mkdir p)
    (fun e w => if is_dir (files w) (locate w p) then ret tt w else raise e w).

(** [open(p, "w")] followed by writing [data] and closing. *)
Definition write_text (p : PurePath) (data : string) : Py unit :=
  fun w =>
    let k := locate w p in
    match node_at (files w) k with
    | Some Dir => raise (IsADirectoryError (str p)) w
    | Some (File _) => set_files (put k (File data) (files w)) w
    | None =>
        match node_at (files w) (parent k) with
        | Some Dir => set_files (put k (File data) (files w)) w
        | Some (File _) => raise (NotADirectoryError (str p)) w
        | None => raise (FileNotFoundError (str p)) w
        end
    end.

(** Text mode reads translate CR LF and a lone CR to LF. *)
Fixpoint universal_newlines (s : string) : string :=
  match s with
  | EmptyString => EmptyString
  | String a t =>
      if Ascii.eqb a CR then
        match t with
        | String b t' =>
            if Ascii.eqb b LF then String LF (universal_newlines t')
            else String LF (universal_newlines t)
        | EmptyString => String LF EmptyString
        end
      else String a (universal_newlines t)
  end.

Definition read_bytes (p : PurePath) : Py string :=
  fun w =>
    match node_at (files w) (locate w p) with
    | Some (File d) => ret d w
    | Some Dir => raise (IsADirectoryError (str p)) w
    | None => raise (FileNotFoundError (str p)) w
    end.

(** Whether a file name asks for a directory: it ends in a slash or in a
    [.] component. *)
Definition names_directory (s : string) : bool :=
  String.eqb (last (split "/" s) "") "" || String.eqb (last (split "/" s) "") ".".

(** Opening the file named [s] for reading and reading all of it.  The
    system gets the name as it is written: the empty name names nothing,
    and a name that asks for a directory does not open a file. *)
Definition open_read (s : string) : Py string :=
  fun w =>
    if negb (truthy s) then raise (FileNotFoundError s) w
    else
      match node_at (files w) (locate w (Path s)) with
      | Some (File d) =>
          if names_directory s then raise (NotADirectoryError s) w else ret d w
      | Some Dir => raise (IsADirectoryError s) w
      | None => raise (FileNotFoundError s) w
      end.

(** [open(p, "r")] followed by [read()] and closing. *)
Definition read_text (p : string) : Py string :=
  bind (open_read p) (fun d => ret (universal_newlines d)).

(** [os.path.basename(s)]: what stands after the last slash. *)
Definition basename (s : string) : string := last (split "/" s) "".

(** [os.stat(s)]: what the name [s] reaches, if anything. *)
Definition os_stat (s : string) (w : world) : option node :=
  if negb (truthy s) then None
  else
    match node_at (files w) (locate w (Path s)) with
    | Some (File d) => if names_directory s then None else Some (File d)
    | other => other
    end.

(** [shutil.copy(src, dst)]: into [dst] when that is a directory, under
    the base name of [src]; a source that can be reached and is the
    destination is refused; then the source is opened and read, and the
    destination written. *)
Definition shutil_copy (src : string) (dst : PurePath) : Py unit :=
  fun w =>
    let dst' :=
      if is_dir (files w) (locate w dst) then div dst (basename src) else dst in
    if loc_eqb (locate w (Path src)) (locate w dst')
       && match os_stat src w with Some _ => true | None => false end
    then raise (SameFileError src (str dst')) w
    else bind (open_read src) (fun d => write_text dst' d) w.

(** [print(s)] *)
Definition print (s : string) : Py unit :=
  fun w => (Return tt, mkWorld (cwd w) (files w) (console w ++ [s])%list (spawned w)).

(** [subprocess.run(cmd, cwd=dir, capture_output=True, text=True)]: no
    [check=True], so the exit status of a process that ran raises
    nothing.  A working directory that is not there fails the launch. *)
Definition subprocess_run (h : host) (cmd : list string) (dir : string)
  : Py CompletedProcess :=
  fun w =>
    let w1 := mkWorld (cwd w) (files w) (console w) (spawned w ++ [cmd])%list in
    if is_dir (files w) (locate w (Path dir)) then
      match exec h cmd (locate w (Path dir)) (files w) with
      | (inr p, fs) => (Return p, mkWorld (cwd w1) fs (console w1) (spawned w1))
      | (inl e, fs) => (Raise e, mkWorld (cwd w1) fs (console w1) (spawned w1))
      end
    else (Raise (FileNotFoundError dir), w1).

End Os.

Declare Scope py_scope.
Delimit Scope py_scope with py.
Notation "x <- c ;; k" := (Os.bind c (fun x => k))
  (at level 61, c at next level, right associativity) : py_scope.
Notation "c ;; k" := (Os.bind c (fun _ => k))
  (at level 61, right associativity) : py_scope.

(** ** [web_ui.py] *)

Module WebUi.
Import PyStr Os.
Local Open Scope py_scope.

Definition dq : string := chr DQUOTE.

(** The page template of [get_interactive_3dmol_iframe] (lines 34-106),
    before and after the place of [escaped_pdb], and the frame around it
    (lines 108-115), before and after the escaped page. *)
Definition inner_html_head : string :=
  "
<!DOCTYPE html>
<html>
<head>
  <meta charset=" ++ dq ++ "utf-8" ++ dq ++ ">
  <style>
    html, body { margin: 0; padding: 0; height: 100%; width: 100%; overflow: hidden; }
    #viewer { width: 100%; height: 100%; position: relative; }
    /* 简单的 Loading 提示 */
    .loading { position: absolute; top: 50%; left: 50%; transform: translate(-50%, -50%); font-family: sans-serif; color: #666; }
  </style>
  <script src=" ++ dq ++ "https://3Dmol.org/build/3Dmol-min.js" ++ dq ++ "></script>
</head>
<body>
  <div id=" ++ dq ++ "viewer" ++ dq ++ "><div class=" ++ dq ++ "loading" ++ dq ++ ">正在渲染结构...</div></div>
  <script>
    document.addEventListener(" ++ dq ++ "DOMContentLoaded" ++ dq ++ ", function() {
        let element = document.getElementById('viewer');
        let config = { backgroundColor: 'white' };
        let viewer = $3Dmol.createViewer(element, config);
        
        let pdbData = '".

Definition inner_html_tail : string :=
  "';
        
        // 加载模型
        viewer.addModel(pdbData, " ++ dq ++ "pdb" ++ dq ++ ");
        
        // --- 样式设置 ---
        // 1. 卡通模式 (Cartoon)
        viewer.setStyle({}, {cartoon: {color: 'spectrum'}});
        
        // 2. 同时显示侧链 (Stick) - 可选，为了更清楚看清残基
        // viewer.addStyle({}, {stick: {radius: 0.1, colorscheme: 'Jmol'}});

        // --- 核心交互：鼠标悬停 (Hover) ---
        viewer.setHoverable({}, true, 
            function(atom, viewer, event, container) {
                // 鼠标移入: 添加标签
                if(!atom.label) {
                    // 构造标签文本: " ++ dq ++ "ResidueName Number" ++ dq ++ " (例如: ALA 15)
                    let labelText = atom.resn + " ++ dq ++ " " ++ dq ++ " + atom.resi;
                    if(atom.chain) labelText += " ++ dq ++ ":" ++ dq ++ " + atom.chain; // 如果有多链，加上链ID
                    
                    atom.label = viewer.addLabel(labelText, {
                        position: atom, 
                        backgroundColor: 'rgba(0,0,0, 0.7)', // 半透明黑底
                        fontColor: 'white',
                        fontSize: 12,
                        borderRadius: 4,
                        offset: {x: 0, y: -10} // 稍微向上偏移
                    });
                }
            },
            function(atom, viewer) {
                // 鼠标移出: 删除标签
                if(atom.label) {
                    viewer.removeLabel(atom.label);
                    delete atom.label;
                }
            }
        );

        // --- 渲染 ---
        viewer.zoomTo();
        viewer.render();
        
        // 移除 Loading 文字
        let loading = document.querySelector('.loading');
        if(loading) loading.style.display = 'none';
    });
  </script>
</body>
</html>
".

Definition iframe_html_head : string :=
  "
        <iframe 
            srcdoc=" ++ dq.

Definition iframe_html_tail : string :=
  dq ++ " 
            width=" ++ dq ++ "100%" ++ dq ++ " 
            height=" ++ dq ++ "600px" ++ dq ++ " 
            style=" ++ dq ++ "border: 1px solid #ddd; border-radius: 8px; box-shadow: 0 2px 5px rgba(0,0,0,0.05);" ++ dq ++ ">
        </iframe>
        ".

(** Line 31: [raw_pdb.replace("\n", "\\n").replace("'", "\\'")]. *)
Definition escaped_pdb (raw_pdb : string) : string :=
  replace QUOTE "\'" (replace LF "\n" raw_pdb).

Definition inner_html (raw_pdb : string) : string :=
  inner_html_head ++ escaped_pdb raw_pdb ++ inner_html_tail.

Definition iframe_html (raw_pdb : string) : string :=
  iframe_html_head ++ html_escape (inner_html raw_pdb) ++ iframe_html_tail.

Section Pipeline.
Variable h : host.

Definition get_interactive_3dmol_iframe (pdb_path : string) : Py string :=
  if negb (truthy pdb_path) then ret ""
  else
    try_except
      (raw_pdb <- read_text pdb_path ;;
       ret (iframe_html raw_pdb))
      (fun e =>
         ret ("<div style='color:red; padding:20px'>加载失败: "
                ++ str_exn h e ++ "</div>")).

(** [dict[key] = value] *)
Fixpoint dict_set (key : string) (value : yaml) (d : list (string * yaml))
  : list (string * yaml) :=
  match d with
  | [] => [(key, value)]
  | (k, v) :: r =>
      if String.eqb k key then (k, value) :: r
      else (k, v) :: dict_set key value r
  end.

(** Lines 125-148 of [generate_config_yaml]: the dictionary
    [config_data]. *)
Definition config_data (pdb_path : PurePath) (target_chain_id : string)
    (binder_len_min binder_len_max : Z) (hotspots_text : string)
    (is_cyclic : bool) : yaml :=
  let protein :=
    [ ("id", YStr "B");
      ("sequence", YStr (str_int binder_len_min ++ ".." ++ str_int binder_len_max)) ] in
  let protein :=
    if is_cyclic then dict_set "cyclic" (YBool true) protein else protein in
  let binder_entity := YMap [ ("protein", YMap protein) ] in
  let file :=
    [ ("path", YStr (name pdb_path));
      ("include", YSeq [ YMap [ ("chain", YMap [ ("id", YStr target_chain_id) ]) ] ]) ] in
  let file :=
    if truthy hotspots_text && truthy (strip hotspots_text) then
      let clean_hotspots := replace SPACE "" hotspots_text in
      dict_set "binding_types"
        (YSeq [ YMap [ ("chain", YMap [ ("id", YStr target_chain_id) ]);
                       ("binding", YStr clean_hotspots) ] ])
        file
    else file in
  let target_entity := YMap [ ("file", YMap file) ] in
  YMap [ ("entities", YSeq [ binder_entity; target_entity ]) ].

Definition generate_config_yaml (work_dir pdb_path : PurePath)
    (target_chain_id : string) (binder_len_min binder_len_max : Z)
    (hotspots_text : string) (is_cyclic : bool) : Py PurePath :=
  let yaml_path := div work_dir "design_spec.yaml" in
  write_text yaml_path
    (yaml_dump h (config_data pdb_path target_chain_id binder_len_min
                    binder_len_max hotspots_text is_cyclic)) ;;
  ret yaml_path.

Definition BASE_WORK_DIR : PurePath := Path "gradio_workspace".

(** Line 12, run when the module is loaded. *)
Definition module_init : Py unit := mkdir_exist_ok BASE_WORK_DIR.

(** The object the upload widget hands over; [name] is the path of the
    uploaded copy. *)
Record upload : Type := mkUpload { upload_name : string }.

(** Lines 191-193: the directory that is searched. *)
Definition final_dir (job_dir : PurePath) (w : world) : PurePath :=
  if exists_ (div job_dir "final_ranked_designs") w
  then div job_dir "final_ranked_designs"
  else div job_dir "intermediate_designs".

(** Line 195: [generated_files]. *)
Definition generated_files (job_dir : PurePath) (w : world) : list PurePath :=
  (glob (final_dir job_dir w) ".pdb" w ++ glob (final_dir job_dir w) ".cif" w)%list.

(** Lines 155-156: [job_id] and [job_dir]. *)
Definition job_id_of (uuid4 : string) : string := "run_" ++ take 8 uuid4.

Definition job_dir_of (uuid4 : string) : PurePath :=
  div BASE_WORK_DIR (job_id_of uuid4).

(** Lines 173-180: the argument vector [cmd]. *)
Definition command (yaml_path job_dir : PurePath) (protocol : string)
    (num_designs budget steps : Z) (w : world) : list string :=
  [ "boltzgen"; "run"; str (absolute w yaml_path);
    "--output"; str (absolute w job_dir);
    "--protocol"; protocol;
    "--num_designs"; str_int num_designs;
    "--budget"; str_int budget;
    "--config"; "design"; "sampling.steps=" ++ str_int steps ].

(** Line 187: the text [logs]. *)
Definition logs_of (cmd_str : string) (process : CompletedProcess) : string :=
  "=== CMD ===" ++ chr LF ++ cmd_str ++ chr LF ++ chr LF
    ++ "=== STDOUT ===" ++ chr LF ++ stdout process ++ chr LF
    ++ "=== STDERR ===" ++ chr LF ++ stderr process.

(** [uuid4] is the text of the identifier that [uuid.uuid4()] draws. *)
Definition run_boltzgen_task (uuid4 : string) (input_file : option upload)
    (target_chain : string) (binder_min binder_max : Z) (hotspots : string)
    (is_cyclic : bool) (protocol : string) (num_designs budget steps : Z)
  : Py (option string * string) :=
  let job_dir := job_dir_of uuid4 in
  mkdir_exist_ok job_dir ;;
  match input_file with
  | None => ret (None, "错误：请先上传 PDB 文件")
  | Some input_file =>
      let original_filename := name (Path (upload_name input_file)) in
      let saved_pdb_path := div job_dir original_filename in
      shutil_copy (upload_name input_file) saved_pdb_path ;;
      made <- attempt (generate_config_yaml job_dir saved_pdb_path target_chain
                         binder_min binder_max hotspots is_cyclic) ;;
      match made with
      | inl e => ret (None, "Config Error: " ++ str_exn h e)
      | inr yaml_path =>
          cmd <- gets (command yaml_path job_dir protocol num_designs budget steps) ;;
          let cmd_str := join " " cmd in
          print ("Executing: " ++ cmd_str) ;;
          ran <- attempt
                   (process <- subprocess_run h cmd (str job_dir) ;;
                    ret (logs_of cmd_str process)) ;;
          match ran with
          | inl e => ret (None, "System Error: " ++ str_exn h e)
          | inr logs =>
              files_found <- gets (generated_files job_dir) ;;
              match files_found with
              | [] => ret (None, "未找到结果文件。" ++ chr LF ++ logs)
              | best :: _ =>
                  let best_pdb := str best in
                  page <- get_interactive_3dmol_iframe best_pdb ;;
                  ret (Some page, logs)
              end
          end
      end
  end.

(** Lines 239-243: the preview shown when a file is chosen. *)
Definition preview (x : option upload) : Py string :=
  match x with
  | Some x => get_interactive_3dmol_iframe (upload_name x)
  | None => ret ""
  end.

End Pipeline.

End WebUi.

(** ** Reading a built specification and a finished run *)

Module Reader.
Import PyStr Os WebUi.

Fixpoint assoc (k : string) (d : list (string * yaml)) : option yaml :=
  match d with
  | [] => None
  | (k', v) :: r => if String.eqb k' k then Some v else assoc k r
  end.

(** [y[k]] for a dictionary, [y[i]] for a list. *)
Definition field (k : string) (y : option yaml) : option yaml :=
  match y with
  | Some (YMap d) => assoc k d
  | _ => None
  end.

Definition item (i : nat) (y : option yaml) : option yaml :=
  match y with
  | Some (YSeq l) => nth_error l i
  | _ => None
  end.

(** [entities[0].protein] and [entities[1].file]. *)
Definition binder_protein (cfg : yaml) : option yaml :=
  field "protein" (item 0 (field "entities" (Some cfg))).

Definition target_file (cfg : yaml) : option yaml :=
  field "file" (item 1 (field "entities" (Some cfg))).

(** The reading rule for the cyclic flag: present means true, absent
    means false. *)
Definition read_cyclic (cfg : yaml) : bool :=
  match field "cyclic" (binder_protein cfg) with
  | Some _ => true
  | None => false
  end.

(** The binding annotation: [file.binding_types[0].binding]. *)
Definition binding (cfg : yaml) : option yaml :=
  field "binding" (item 0 (field "binding_types" (target_file cfg))).

(** Reading a range [a..b] back: the text splits at its dots into the
    first numeral, nothing, and the second numeral. *)
Definition read_int (s : string) : option Z :=
  option_map Z.of_int (NilEmpty.int_of_string s).

Definition read_range (s : string) : option (Z * Z) :=
  match split "." s with
  | [a; EmptyString; b] =>
      match read_int a, read_int b with
      | Some x, Some y => Some (x, y)
      | _, _ => None
      end
  | _ => None
  end.

(** A text with every whitespace character taken out, as the words
    "strips all whitespace" ask for; to be compared with what
    [config_data] does to the hotspot text. *)
Fixpoint without_whitespace_fuel (n : nat) (s : string) : string :=
  match n with
  | O => s
  | S n' =>
      match drop_one whitespace s with
      | Some r => without_whitespace_fuel n' r
      | None =>
          match s with
          | EmptyString => EmptyString
          | String a t => String a (without_whitespace_fuel n' t)
          end
      end
  end.

Definition without_whitespace (s : string) : string :=
  without_whitespace_fuel (String.length s) s.

(** A text made of the characters [ws] only; with [whitespace], an empty
    or whitespace-only text. *)
Inductive made_of (ws : list string) : string -> Prop :=
| made_nil : made_of ws EmptyString
| made_cons w s : In w ws -> made_of ws s -> made_of ws (w ++ s).

Definition blank : string -> Prop := made_of whitespace.

(** No element of [ws] starts with another one. *)
Definition prefix_free (ws : list string) : bool :=
  forallb (fun a => forallb (fun b => negb (starts_with a b) || String.eqb a b) ws) ws.

(** The characters of [s] that satisfy [keep], in their order. *)
Fixpoint keep_chars (keep : ascii -> bool) (s : string) : string :=
  match s with
  | EmptyString => EmptyString
  | String a t => if keep a then String a (keep_chars keep t) else keep_chars keep t
  end.

(** The same host, with the exit status of every process it runs
    replaced by [f] of it. *)
Definition with_status (f : Z -> Z) (h : host) : host :=
  mkHost (str_exn h) (yaml_dump h)
    (fun cmd dir fs =>
       match exec h cmd dir fs with
       | (inr p, fs') => (inr (mkProcess (f (returncode p)) (stdout p) (stderr p)), fs')
       | (inl e, fs') => (inl e, fs')
       end).

(** The entry names of the directory at [dir] that end in [suffix]. *)
Definition names_in (dir : location) (suffix : string) (fs : filesys) : list string :=
  flat_map
    (fun '(k, _) =>
       match child_name dir k with
       | Some nm => if ends_with suffix nm then [nm] else []
       | None => []
       end)
    fs.

(** The structure files of the directory [d]: its [.pdb] entries, then
    its [.cif] entries. *)
Definition structures_in (d : PurePath) (w : world) : list PurePath :=
  if is_dir (files w) (locate w d) then
    (map (child d) (names_in (locate w d) ".pdb" (files w))
       ++ map (child d) (names_in (locate w d) ".cif" (files w)))%list
  else [].

(** The texts [str(uuid.uuid4())] can be: 32 lower-case hexadecimal
    digits in groups of 8, 4, 4, 4 and 12, with hyphens between. *)
Definition is_hex (a : ascii) : bool := contains a "0123456789abcdef".

Fixpoint shaped (pattern s : string) : bool :=
  match pattern, s with
  | EmptyString, EmptyString => true
  | String c pattern', String a s' =>
      (if Ascii.eqb c "-" then Ascii.eqb a "-" else is_hex a) && shaped pattern' s'
  | _, _ => false
  end.

Definition uuid_text (s : string) : bool :=
  shaped "xxxxxxxx-xxxx-xxxx-xxxx-xxxxxxxxxxxx" s.

(** The message of line 160. *)
Definition no_input : string := "错误：请先上传 PDB 文件".

Definition is_pdb (p : PurePath) : bool := ends_with ".pdb" (name p).
Definition is_cif (p : PurePath) : bool := ends_with ".cif" (name p).

(** What the run set up before it launches the tool (lines 155-169): the
    job directory, the copy of the upload and the specification file. *)
Definition prepared (h : host) (uuid4 : string) (input_file : upload)
    (target_chain : string) (binder_min binder_max : Z) (hotspots : string)
    (is_cyclic : bool) : Py PurePath :=
  (mkdir_exist_ok (job_dir_of uuid4) ;;
   shutil_copy (upload_name input_file)
     (div (job_dir_of uuid4) (name (Path (upload_name input_file)))) ;;
   generate_config_yaml h (job_dir_of uuid4)
     (div (job_dir_of uuid4) (name (Path (upload_name input_file))))
     target_chain binder_min binder_max hotspots is_cyclic)%py.

End Reader.

(** ** Sample hosts, worlds and pages *)

Module Sample.
Import PyStr Os WebUi Hover.

Definition uuid : string := "123e4567-e89b-12d3-a456-426614174000".

Definition show_exn (e : exn) : string :=
  match e with
  | FileNotFoundError f => "No such file or directory: " ++ f
  | FileExistsError f => "File exists: " ++ f
  | IsADirectoryError f => "Is a directory: " ++ f
  | NotADirectoryError f => "Not a directory: " ++ f
  | SameFileError a b => a ++ " and " ++ b ++ " are the same file"
  | OSError m => m
  end.

(** A tool that fails with status 1 after it has left one structure in
    [intermediate_designs]. *)
Definition failing_tool (cmd : list string) (dir : location) (fs : filesys)
  : (exn + CompletedProcess) * filesys :=
  (inr (mkProcess 1 "sampling" "Traceback: out of memory"),
   (fs ++ [ ((dir ++ ["intermediate_designs"])%list, Dir);
            ((dir ++ ["intermediate_designs"; "design_0.pdb"])%list, File "ATOM      1  N   ALA A   1") ])%list).

Definition host1 : host := mkHost show_exn (fun _ => "entities: ...") failing_tool.

(** The server runs in [/srv]; the work directory exists and the upload
    widget has stored [/tmp/target.pdb]. *)
Definition world1 : world :=
  mkWorld ["srv"]
    [ (["srv"], Dir);
      (["tmp"], Dir);
      (["tmp"; "target.pdb"], File "ATOM      1  N   GLY A   1");
      (["srv"; "gradio_workspace"], Dir) ]
    [] [].

Definition job1 : PurePath := job_dir_of uuid.

(** A finished job with both output directories filled. *)
Definition world2 : world :=
  mkWorld ["srv"]
    [ (["srv"], Dir);
      (["srv"; "gradio_workspace"], Dir);
      (["srv"; "gradio_workspace"; "run_123e4567"], Dir);
      (["srv"; "gradio_workspace"; "run_123e4567"; "intermediate_designs"], Dir);
      (["srv"; "gradio_workspace"; "run_123e4567"; "intermediate_designs"; "early.pdb"], File "A");
      (["srv"; "gradio_workspace"; "run_123e4567"; "final_ranked_designs"], Dir);
      (["srv"; "gradio_workspace"; "run_123e4567"; "final_ranked_designs"; "rank1.cif"], File "B");
      (["srv"; "gradio_workspace"; "run_123e4567"; "final_ranked_designs"; "notes.txt"], File "C");
      (["srv"; "gradio_workspace"; "run_123e4567"; "final_ranked_designs"; "rank2.pdb"], File "D") ]
    [] [].

(** A structure file with a remark that holds a backslash and a quote. *)
Definition remark : string := "\';alert(1)//".

Definition world3 : world :=
  mkWorld ["srv"]
    [ (["srv"], Dir);
      (["tmp"], Dir);
      (["tmp"; "remark.pdb"], File remark) ]
    [] [].

Definition page1 : Page := loaded [ ("ALA", 15%Z, "A"); ("GLY", 16%Z, "") ].

End Sample.

(** ** What a run may touch, and more sample hosts and worlds *)

Module Observe.
Import PyStr Os WebUi Reader.

(** [a] is [b] or lies above it. *)
Fixpoint is_prefix (a b : location) : bool :=
  match a, b with
  | [], _ => true
  | x :: a', y :: b' => String.eqb x y && is_prefix a' b'
  | _ :: _, [] => false
  end.

(** From [w] to [w'] nothing outside the directory at [root] has changed:
    the same working directory, console and launched processes, and the
    same node at every location that is not [root] or below it. *)
Definition confined_to (root : location) (w w' : world) : Prop :=
  cwd w' = cwd w
  /\ console w' = console w
  /\ spawned w' = spawned w
  /\ forall k, is_prefix root k = false -> node_at (files w') k = node_at (files w) k.

(** The atoms of a page that hold a label. *)
Definition labeled_atoms (p : Hover.Page) : nat :=
  List.length (filter (fun a => match Hover.label a with Some _ => true | None => false end)
                      (Hover.atoms p)).



End Observe.

Module Sample2.
Import PyStr Os WebUi Reader.

(** A tool that runs, succeeds and writes nothing. *)
Definition silent_tool (cmd : list string) (dir : location) (fs : filesys)
  : (exn + CompletedProcess) * filesys :=
  (inr (mkProcess 0 "done" ""), fs).

Definition host2 : host := mkHost Sample.show_exn (fun _ => "entities: ...") silent_tool.

(** No program of that name on the search path. *)
Definition absent_tool (cmd : list string) (dir : location) (fs : filesys)
  : (exn + CompletedProcess) * filesys :=
  (inl (FileNotFoundError "boltzgen"), fs).

Definition host3 : host := mkHost Sample.show_exn (fun _ => "entities: ...") absent_tool.

(** The job directory of [Sample.uuid] is there already, with a
    directory where the specification file goes. *)
Definition world4 : world :=
  mkWorld ["srv"]
    [ (["srv"], Dir);
      (["tmp"], Dir);
      (["tmp"; "target.pdb"], File "ATOM      1  N   GLY A   1");
      (["srv"; "gradio_workspace"], Dir);
      (["srv"; "gradio_workspace"; "run_123e4567"], Dir);
      (["srv"; "gradio_workspace"; "run_123e4567"; "design_spec.yaml"], Dir) ]
    [] [].

(** An upload whose base name is that of the specification file. *)
Definition world5 : world :=
  mkWorld ["srv"]
    [ (["srv"], Dir);
      (["tmp"], Dir);
      (["tmp"; "design_spec.yaml"], File "ATOM      1  N   GLY A   1");
      (["srv"; "gradio_workspace"], Dir) ]
    [] [].

(** The server has not created its work directory yet. *)
Definition world6 : world := mkWorld ["srv"] [ (["srv"], Dir) ] [] [].

Definition uuid2 : string := "123e4567-0000-4000-8000-000000000000".
Definition uuid3 : string := "89abcdef-0000-4000-8000-000000000000".

End Sample2.

(** ** The value of the literal the structure text is written into *)

Module JsValue.
Import PyStr.



End JsValue.

(** ** The page template around its inline script *)

Module Layout.
Import PyStr Os WebUi.






End Layout.

(** * Properties *)

Module StrFacts.
Import PyStr.
Local Arguments Ascii.eqb : simpl never.

Lemma contains_app c a b : contains c (a ++ b) = contains c a || contains c b.
Proof.
  induction a as [|x a IH]; simpl; [reflexivity|].
  now rewrite IH, orb_assoc.
Qed.

Lemma contains_replace_self old new s :
  contains old new = false -> contains old (replace old new s) = false.
Proof.
  intros Hn. induction s as [|a s IH]; simpl; [reflexivity|].
  destruct (Ascii.eqb_spec a old) as [->|Hne].
  - now rewrite contains_app, Hn, IH.
  - simpl. rewrite IH, orb_false_r. apply Ascii.eqb_neq. congruence.
Qed.

Lemma contains_replace_other c old new s :
  contains c new = false -> contains c s = false ->
  contains c (replace old new s) = false.
Proof.
  intros Hn. induction s as [|a s IH]; simpl; [reflexivity|].
  intros H. apply orb_false_iff in H as [Ha Hs].
  destruct (Ascii.eqb a old).
  - now rewrite contains_app, Hn, IH.
  - simpl. now rewrite Ha, IH.
Qed.

Lemma append_assoc (a b c : string) : (a ++ b) ++ c = a ++ b ++ c.
Proof. induction a as [|x a IH]; simpl; [reflexivity|now rewrite IH]. Qed.

Lemma replace_app old new a b :
  replace old new (a ++ b) = replace old new a ++ replace old new b.
Proof.
  induction a as [|x a IH]; simpl; [reflexivity|].
  destruct (Ascii.eqb x old); simpl; rewrite IH; [now rewrite append_assoc|reflexivity].
Qed.
Lemma split_no_sep sep s : contains sep s = false -> Os.split sep s = [s].
Proof.
  induction s as [|a s IH]; simpl; [reflexivity|].
  intros H. apply orb_false_iff in H as [Ha Hs].
  rewrite Ascii.eqb_sym, Ha, (IH Hs). reflexivity.
Qed.

Lemma split_app sep a t :
  contains sep a = false -> Os.split sep (a ++ String sep t) = a :: Os.split sep t.
Proof.
  induction a as [|x a IH]; simpl.
  - intros _. now rewrite Ascii.eqb_refl.
  - intros H. apply orb_false_iff in H as [Hx Ha].
    rewrite Ascii.eqb_sym, Hx, (IH Ha). reflexivity.
Qed.

End StrFacts.

Module EscapeFacts.
Import PyStr Os WebUi Js StrFacts.
Local Arguments Ascii.eqb : simpl never.

Lemma escaped_pdb_no_newline raw : contains LF (escaped_pdb raw) = false.
Proof.
  unfold escaped_pdb.
  apply contains_replace_other; [reflexivity|].
  apply contains_replace_self. reflexivity.
Qed.

Lemma replace_quote_prefixed prev s :
  quotes_prefixed prev (replace QUOTE "\'" s) = true.
Proof.
  revert prev. induction s as [|a s IH]; intros prev; simpl; [reflexivity|].
  destruct (Ascii.eqb_spec a QUOTE) as [->|Hne].
  - simpl. apply IH.
  - simpl. rewrite IH.
    destruct (Ascii.eqb_spec a QUOTE); [contradiction|reflexivity].
Qed.

Lemma escaped_pdb_quotes_prefixed raw :
  quotes_prefixed false (escaped_pdb raw) = true.
Proof. apply replace_quote_prefixed. Qed.

Lemma universal_newlines_no_CR s : contains CR (Os.universal_newlines s) = false.
Proof.
  assert (H : contains CR (universal_newlines s) = false
              /\ forall a, contains CR (universal_newlines (String a s)) = false).
  { induction s as [|b s [IH1 IH2]].
    - split; [reflexivity|]. intros a. simpl.
      destruct (Ascii.eqb_spec a CR) as [->|Hne]; [reflexivity|].
      simpl. rewrite orb_false_r. apply Ascii.eqb_neq. congruence.
    - split; [apply IH2|]. intros a.
      change (universal_newlines (String a (String b s)))
        with (if Ascii.eqb a CR
              then if Ascii.eqb b LF then String LF (universal_newlines s)
                   else String LF (universal_newlines (String b s))
              else String a (universal_newlines (String b s))).
      destruct (Ascii.eqb_spec a CR) as [->|Hne].
      + destruct (Ascii.eqb b LF); simpl contains at 1; [apply IH1 | apply IH2].
      + cbn [contains]. rewrite IH2, orb_false_r. apply Ascii.eqb_neq. congruence. }
  apply H.
Qed.


End EscapeFacts.

Module StripFacts.
Import PyStr Reader StrFacts.
Local Arguments Ascii.eqb : simpl never.

Lemma strip_prefix_some p s r : strip_prefix p s = Some r -> s = p ++ r.
Proof.
  revert s. induction p as [|a p IH]; intros s; simpl.
  - now intros [= ->].
  - destruct s as [|b s]; [discriminate|].
    destruct (Ascii.eqb_spec a b) as [<-|]; [|discriminate].
    intros H. now rewrite (IH _ H).
Qed.

Lemma strip_prefix_app p r : strip_prefix p (p ++ r) = Some r.
Proof. induction p as [|a p IH]; simpl; [reflexivity|]. now rewrite Ascii.eqb_refl. Qed.

Lemma app_inv_head (p r r' : string) : p ++ r = p ++ r' -> r = r'.
Proof. induction p as [|a p IH]; simpl; [auto|]. intros [= H]. auto. Qed.

Lemma app_comparable (a b r r' : string) :
  a ++ r = b ++ r' -> starts_with a b = true \/ starts_with b a = true.
Proof.
  unfold starts_with. revert b. induction a as [|x a IH]; intros b; [now left|].
  destruct b as [|y b]; [now right|]. simpl. intros [= <- H].
  rewrite Ascii.eqb_refl. now apply IH.
Qed.

Lemma starts_with_spec a b : starts_with a b = true -> exists r, b = a ++ r.
Proof.
  unfold starts_with. destruct (strip_prefix a b) as [r|] eqn:E; [|discriminate].
  intros _. exists r. now apply strip_prefix_some.
Qed.

Lemma prefix_free_spec ws a b :
  prefix_free ws = true -> In a ws -> In b ws -> starts_with a b = true -> a = b.
Proof.
  unfold prefix_free. rewrite forallb_forall. intros H Ha Hb Hs.
  specialize (H a Ha). rewrite forallb_forall in H. specialize (H b Hb).
  rewrite Hs in H. now apply String.eqb_eq.
Qed.

Lemma drop_one_some ws s r :
  drop_one ws s = Some r -> exists w, In w ws /\ s = w ++ r.
Proof.
  induction ws as [|w ws IH]; simpl; [discriminate|].
  destruct (strip_prefix w s) as [r'|] eqn:E.
  - intros [= <-]. exists w. split; [now left|now apply strip_prefix_some].
  - intros H. destruct (IH H) as [w' [Hin Hs]]. exists w'. auto.
Qed.

Lemma drop_one_none ws w r : In w ws -> drop_one ws (w ++ r) <> None.
Proof.
  induction ws as [|w' ws IH]; simpl; [tauto|].
  intros [->|Hin].
  - now rewrite strip_prefix_app.
  - destruct (strip_prefix w' (w ++ r)); [discriminate|auto].
Qed.

Lemma drop_one_app ws w r :
  prefix_free ws = true -> In w ws -> drop_one ws (w ++ r) = Some r.
Proof.
  intros Hpf Hin. destruct (drop_one ws (w ++ r)) as [r'|] eqn:E.
  - destruct (drop_one_some _ _ _ E) as [w' [Hin' Heq]].
    assert (w = w') as <-.
    { destruct (app_comparable _ _ _ _ Heq) as [H|H].
      - now apply (prefix_free_spec ws).
      - symmetry. now apply (prefix_free_spec ws). }
    now apply app_inv_head in Heq as <-.
  - now apply drop_one_none in E.
Qed.

Lemma length_append (a b : string) :
  String.length (a ++ b) = String.length a + String.length b.
Proof. induction a as [|x a IH]; simpl; [reflexivity|now rewrite IH]. Qed.

Lemma made_of_app ws a b : made_of ws a -> made_of ws b -> made_of ws (a ++ b).
Proof.
  induction 1 as [|w s Hin _ IH]; intros Hb; [assumption|].
  rewrite append_assoc. constructor; auto.
Qed.

Lemma lstrip_fuel_split ws n s :
  exists p, made_of ws p /\ s = p ++ lstrip_fuel ws n s.
Proof.
  revert s. induction n as [|n IH]; intros s; simpl.
  - exists EmptyString. split; [constructor|reflexivity].
  - destruct (drop_one ws s) as [r|] eqn:E.
    + destruct (drop_one_some _ _ _ E) as [w [Hin ->]].
      destruct (IH r) as [p [Hp Hr]].
      exists (w ++ p). split; [now constructor|].
      now rewrite append_assoc, <- Hr.
    + exists EmptyString. split; [constructor|reflexivity].
Qed.

Lemma append_empty_r (s : string) : s ++ EmptyString = s.
Proof. induction s as [|a s IH]; simpl; [reflexivity|now rewrite IH]. Qed.

Lemma lstrip_fuel_empty ws n s : lstrip_fuel ws n s = EmptyString -> made_of ws s.
Proof.
  intros H. destruct (lstrip_fuel_split ws n s) as [p [Hp Hs]].
  rewrite H, append_empty_r in Hs. now subst.
Qed.

Lemma made_of_lstrip ws n s :
  prefix_free ws = true -> forallb truthy ws = true ->
  made_of ws s -> String.length s <= n -> lstrip_fuel ws n s = EmptyString.
Proof.
  intros Hpf Hne Hs. revert n. induction Hs as [|w s Hin _ IH]; intros n Hn.
  - destruct n; simpl; [reflexivity|].
    destruct (drop_one ws EmptyString) as [r|] eqn:E; [|reflexivity].
    destruct (drop_one_some _ _ _ E) as [w [Hin Heq]].
    rewrite forallb_forall in Hne. specialize (Hne w Hin).
    destruct w; [discriminate Hne|discriminate Heq].
  - rewrite forallb_forall in Hne. pose proof (Hne w Hin) as Hw.
    rewrite length_append in Hn.
    destruct w as [|a w]; [discriminate Hw|]. simpl in Hn.
    destruct n as [|n]; [lia|].
    cbn [lstrip_fuel]. rewrite (drop_one_app ws (String a w) s Hpf Hin).
    apply IH. lia.
Qed.

Lemma rev_onto_app s acc : rev_onto s acc = rev s ++ acc.
Proof.
  unfold rev. revert acc. induction s as [|a s IH]; intros acc; simpl; [reflexivity|].
  rewrite IH, (IH (String a EmptyString)), append_assoc. reflexivity.
Qed.

Lemma rev_app a b : rev (a ++ b) = rev b ++ rev a.
Proof.
  induction a as [|x a IH]; simpl.
  - now rewrite append_empty_r.
  - unfold rev at 1 3. simpl. rewrite !rev_onto_app, IH, append_assoc. reflexivity.
Qed.

Lemma rev_involutive s : rev (rev s) = s.
Proof.
  induction s as [|a s IH]; [reflexivity|].
  unfold rev at 2. simpl. rewrite rev_onto_app, rev_app, IH. reflexivity.
Qed.

Lemma rev_empty s : rev s = EmptyString -> s = EmptyString.
Proof. intros H. rewrite <- (rev_involutive s), H. reflexivity. Qed.

Lemma made_of_rev ws s : made_of (map rev ws) s -> made_of ws (rev s).
Proof.
  induction 1 as [|w s Hin _ IH]; [constructor|].
  rewrite rev_app. apply made_of_app; [assumption|].
  apply in_map_iff in Hin as [w' [<- Hin]]. rewrite rev_involutive.
  rewrite <- (append_empty_r w'). constructor; [assumption|constructor].
Qed.

(** [strip] leaves nothing exactly of the texts that are empty or made of
    whitespace characters only. *)
Lemma strip_blank s : truthy (strip s) = false <-> blank s.
Proof.
  unfold blank. split.
  - intros H. assert (Hs : strip s = EmptyString) by (destruct (strip s); [reflexivity|discriminate]).
    unfold strip, rstrip in Hs. apply rev_empty, lstrip_fuel_empty, made_of_rev in Hs.
    rewrite rev_involutive in Hs.
    destruct (lstrip_fuel_split whitespace (String.length s) s) as [p [Hp Heq]].
    rewrite Heq. now apply made_of_app.
  - intros H. unfold strip, lstrip.
    rewrite (made_of_lstrip whitespace (String.length s) s); auto.
Qed.

End StripFacts.

Module HtmlFacts.
Import PyStr Os WebUi Html StrFacts StripFacts.
Local Arguments Ascii.eqb : simpl never.

Lemma escape_char_cases a :
  escape_char a = chr a /\ dereference references (chr a) = None /\ a <> "&"%char
  \/ exists r, In (r, a) references /\ escape_char a = r.
Proof.
  unfold escape_char.
  destruct (Ascii.eqb_spec a "&") as [->|H1]; [right; eexists; split; [|reflexivity]; simpl; tauto|].
  destruct (Ascii.eqb_spec a "<") as [->|H2]; [right; eexists; split; [|reflexivity]; simpl; tauto|].
  destruct (Ascii.eqb_spec a ">") as [->|H3]; [right; eexists; split; [|reflexivity]; simpl; tauto|].
  destruct (Ascii.eqb_spec a DQUOTE) as [->|H4]; [right; eexists; split; [|reflexivity]; simpl; tauto|].
  destruct (Ascii.eqb_spec a QUOTE) as [->|H5]; [right; eexists; split; [|reflexivity]; simpl; tauto|].
  left. split; [reflexivity|]. split; [|assumption].
  cbn. destruct (Ascii.eqb_spec "&" a) as [<-|]; [contradiction|reflexivity].
Qed.

Lemma html_escape_each s : html_escape s = escape_each s.
Proof.
  unfold html_escape. induction s as [|a s IH]; [reflexivity|].
  change (String a s) with (chr a ++ s).
  rewrite !replace_app, IH. cbn [escape_each append chr]. f_equal.
  unfold escape_char.
  destruct (Ascii.eqb_spec a "&") as [->|H1]; [reflexivity|].
  destruct (Ascii.eqb_spec a "<") as [->|H2]; [reflexivity|].
  destruct (Ascii.eqb_spec a ">") as [->|H3]; [reflexivity|].
  destruct (Ascii.eqb_spec a DQUOTE) as [->|H4]; [reflexivity|].
  destruct (Ascii.eqb_spec a QUOTE) as [->|H5]; [reflexivity|].
  apply Ascii.eqb_neq in H1, H2, H3, H4, H5.
  unfold chr. cbn [replace]. rewrite H1. cbn [replace]. rewrite H2.
  cbn [replace]. rewrite H3. cbn [replace]. rewrite H4.
  cbn [replace]. rewrite H5. reflexivity.
Qed.

Lemma dereference_ref r a t :
  In (r, a) references -> dereference references (r ++ t) = Some (a, t).
Proof.
  simpl. intros [[= <- <-]|[[= <- <-]|[[= <- <-]|[[= <- <-]|[[= <- <-]|[]]]]]]; reflexivity.
Qed.

Lemma dereference_plain a t :
  a <> "&"%char -> dereference references (String a t) = None.
Proof.
  intros H. cbn. destruct (Ascii.eqb_spec "&" a) as [<-|]; [contradiction|reflexivity].
Qed.

Lemma ref_length r a : In (r, a) references -> 1 <= String.length r.
Proof.
  simpl. intros [[= <- <-]|[[= <- <-]|[[= <- <-]|[[= <- <-]|[[= <- <-]|[]]]]]]; simpl; lia.
Qed.

Lemma unescape_escape_each n s :
  String.length (escape_each s) <= n -> unescape_fuel n (escape_each s) = s.
Proof.
  revert n. induction s as [|a s IH]; intros n Hn.
  - destruct n; reflexivity.
  - cbn [escape_each] in *. rewrite length_append in Hn.
    destruct (escape_char_cases a) as [[He [_ Hne]]|[r [Hin He]]]; rewrite He in *.
    + cbn [chr append String.length] in *. destruct n as [|n]; [lia|].
      cbn [unescape_fuel]. rewrite dereference_plain by assumption.
      rewrite IH by lia. reflexivity.
    + pose proof (ref_length r a Hin). destruct n as [|n]; [lia|].
      cbn [unescape_fuel]. rewrite (dereference_ref r a _ Hin).
      rewrite IH by lia. reflexivity.
Qed.

(** The page written into the frame is the page the frame shows. *)
Lemma html_unescape_escape s : html_unescape (html_escape s) = s.
Proof.
  unfold html_unescape. rewrite html_escape_each. now apply unescape_escape_each.
Qed.

Lemma html_escape_no_dquote s : contains DQUOTE (html_escape s) = false.
Proof.
  unfold html_escape.
  apply contains_replace_other; [reflexivity|].
  apply contains_replace_self. reflexivity.
Qed.
(** X4.  The value [get_interactive_3dmol_iframe] returns for a file it
    could read: the page, escaped, as the [srcdoc] attribute of the frame;
    no double quote ends the attribute early, and the frame shows the
    page. *)
Lemma frame_shows_page raw :
  exists attr,
    iframe_html raw = iframe_html_head ++ attr ++ iframe_html_tail
    /\ contains DQUOTE attr = false
    /\ html_unescape attr = inner_html raw.
Proof.
  exists (html_escape (inner_html raw)).
  split; [reflexivity|]. split; [apply html_escape_no_dquote|apply html_unescape_escape].
Qed.

End HtmlFacts.

Module SpecFacts.
Import PyStr Os WebUi Js Reader StrFacts EscapeFacts StripFacts.
Local Arguments Ascii.eqb : simpl never.

(** C1 (fails on the code).  The claim: whatever the structure file holds,
    its text, once escaped, cannot leave the single-quoted literal it is
    written into.  Line 31 puts a backslash before every newline and every
    quote but leaves the backslashes of the text alone.  For the file text
    [\';alert(1)//] the escaped text is [\\';alert(1)//]: the script reads
    [\\] as one escaped backslash, the quote after it closes the literal,
    and the rest of the file text is program text of the page. *)
Theorem escaped_pdb_backslash_quote_breaks_out :
  let raw := Sample.remark in
  fst (get_interactive_3dmol_iframe Sample.host1 "/tmp/remark.pdb" Sample.world3)
  = Return (iframe_html raw)
  /\ escaped_pdb raw = "\\';alert(1)//"
  /\ scan_sq (escaped_pdb raw ++ inner_html_tail)
     = Closed (";alert(1)//" ++ inner_html_tail)
  /\ exists rest,
       inner_html_tail = String QUOTE rest
       /\ inner_html raw = inner_html_head ++ escaped_pdb raw ++ String QUOTE rest
       /\ ~ confined (escaped_pdb raw) rest.
Proof.
  cbv zeta. split; [reflexivity|]. split; [reflexivity|]. split; [reflexivity|].
  eexists. split; [reflexivity|]. split; [reflexivity|].
  unfold confined. intros H. vm_compute in H. discriminate H.
Qed.

Lemma replace_empty_keep c s :
  replace c "" s = keep_chars (fun a => negb (Ascii.eqb a c)) s.
Proof.
  induction s as [|a s IH]; simpl; [reflexivity|].
  destruct (Ascii.eqb a c); simpl; now rewrite IH.
Qed.

Lemma keep_chars_drops c s :
  contains c (keep_chars (fun a => negb (Ascii.eqb a c)) s) = false.
Proof.
  induction s as [|a s IH]; simpl; [reflexivity|].
  destruct (Ascii.eqb_spec a c) as [->|Hne]; simpl; [exact IH|].
  rewrite IH, orb_false_r. apply Ascii.eqb_neq. congruence.
Qed.

Lemma truthy_strip s : truthy s && truthy (strip s) = truthy (strip s).
Proof. destruct s; reflexivity. Qed.

(** C4 (amended).  When the hotspot text is non-empty after trimming, the
    target entity has one binding annotation, for the target chain, whose
    text is the hotspot text with every space character (U+0020) taken
    out: the other characters, tabs and line breaks among them, stay, in
    their order.  When the text is empty or trims to nothing, the target
    entity has no [binding_types] field. *)
Theorem hotspots_binding pdb chain mn mx hs cyc :
  let cfg := config_data pdb chain mn mx hs cyc in
  let clean := keep_chars (fun a => negb (Ascii.eqb a SPACE)) hs in
  field "binding_types" (target_file cfg)
  = (if truthy (strip hs)
     then Some (YSeq [ YMap [ ("chain", YMap [ ("id", YStr chain) ]);
                              ("binding", YStr clean) ] ])
     else None)
  /\ binding cfg = (if truthy (strip hs) then Some (YStr clean) else None)
  /\ contains SPACE clean = false
  /\ (truthy (strip hs) = false <-> blank hs).
Proof.
  cbv zeta. unfold binding, target_file, config_data.
  rewrite truthy_strip, replace_empty_keep.
  split; [|split; [|split; [apply keep_chars_drops|apply strip_blank]]];
    destruct (truthy (strip hs)); reflexivity.
Qed.

(** C4 as stated fails: a tab inside the hotspot text is whitespace, and it
    is still there in the binding annotation. *)
Lemma hotspots_tab_survives :
  let hs := "12," ++ chr TAB ++ "14" in
  let cfg := config_data (Path "/tmp/target.pdb") "A" 8 16 hs false in
  ~ (truthy (strip hs) = true ->
     binding cfg = Some (YStr (without_whitespace hs))).
Proof.
  cbv zeta. intros H. specialize (H eq_refl). vm_compute in H. discriminate H.
Qed.

(** C6.  The binder's [cyclic] field is there, with the value true, exactly
    when the cyclic input is true, and is absent otherwise; reading the
    built document with "present is true, absent is false" gives the input
    back. *)
Theorem cyclic_flag_roundtrip pdb chain mn mx hs (cyc : bool) :
  let cfg := config_data pdb chain mn mx hs cyc in
  field "cyclic" (binder_protein cfg) = (if cyc then Some (YBool true) else None)
  /\ read_cyclic cfg = cyc.
Proof. destruct cyc; split; reflexivity. Qed.

Lemma string_of_uint_no_dot d : contains "." (NilEmpty.string_of_uint d) = false.
Proof. induction d; simpl; try reflexivity; exact IHd. Qed.

Lemma str_int_no_dot z : contains "." (str_int z) = false.
Proof.
  unfold str_int. destruct (Z.to_int z) as [d|d]; simpl.
  - apply string_of_uint_no_dot.
  - apply string_of_uint_no_dot.
Qed.

Lemma read_int_str_int z : read_int (str_int z) = Some z.
Proof.
  unfold read_int, str_int. rewrite NilEmpty.isi. simpl.
  now rewrite DecimalZ.of_to.
Qed.

(** C7.  For all integer bounds (whether or not min <= max) the binder's
    [sequence] is the decimal numeral of the lower bound, two dots, and the
    decimal numeral of the upper bound, and nothing else: the text reads
    back as that pair of bounds. *)
Theorem binder_range_string pdb chain mn mx hs cyc :
  let cfg := config_data pdb chain mn mx hs cyc in
  field "sequence" (binder_protein cfg)
  = Some (YStr (str_int mn ++ ".." ++ str_int mx))
  /\ read_range (str_int mn ++ ".." ++ str_int mx) = Some (mn, mx).
Proof.
  cbv zeta. split; [destruct cyc; reflexivity|].
  unfold read_range.
  change (str_int mn ++ ".." ++ str_int mx)
    with (str_int mn ++ String "." (EmptyString ++ String "." (str_int mx))).
  rewrite split_app by apply str_int_no_dot.
  rewrite split_app by reflexivity.
  rewrite split_no_sep by apply str_int_no_dot.
  now rewrite !read_int_str_int.
Qed.

(** The examples of the specification: spaces are taken out, and a text
    of whitespace only gives no annotation. *)
Example spec_example_hotspots :
  binding (config_data (Path "/tmp/target.pdb") "A" 8 16 " 12, 14, 61 " false)
  = Some (YStr "12,14,61")
  /\ without_whitespace " 12, 14, 61 " = "12,14,61"
  /\ field "binding_types"
       (target_file (config_data (Path "/tmp/target.pdb") "A" 8 16
                       ("  " ++ chr TAB ++ chr LF) false))
     = None.
Proof. repeat split; reflexivity. Qed.

(** The end-to-end example of the specification. *)
Example spec_example_config :
  config_data (Path "/tmp/gradio/target.pdb") "A" 8 16 "12,14" false
  = YMap
      [ ("entities",
         YSeq
           [ YMap [ ("protein", YMap [ ("id", YStr "B"); ("sequence", YStr "8..16") ]) ];
             YMap
               [ ("file",
                  YMap
                    [ ("path", YStr "target.pdb");
                      ("include", YSeq [ YMap [ ("chain", YMap [ ("id", YStr "A") ]) ] ]);
                      ("binding_types",
                       YSeq [ YMap [ ("chain", YMap [ ("id", YStr "A") ]);
                                     ("binding", YStr "12,14") ] ]) ]) ] ]) ].
Proof. reflexivity. Qed.

End SpecFacts.

Module HoverFacts.
Import PyStr Hover.

Lemma nth_error_set_nth_same {A} (l : list A) i x a :
  nth_error l i = Some a -> nth_error (set_nth i x l) i = Some x.
Proof.
  revert i. induction l as [|y l IH]; intros [|i]; simpl; try discriminate; auto.
Qed.

Lemma nth_error_set_nth_other {A} (l : list A) i j x :
  i <> j -> nth_error (set_nth i x l) j = nth_error l j.
Proof.
  revert i j. induction l as [|y l IH]; intros [|i] [|j] H; simpl; auto.
  contradiction.
Qed.

Lemma hover_idempotent i p : hover i (hover i p) = hover i p.
Proof.
  unfold hover at 2 3.
  destruct (nth_error (atoms p) i) as [a|] eqn:Ha.
  - destruct (label a) eqn:Hl.
    + unfold hover. now rewrite Ha, Hl.
    + unfold hover, addLabel. cbn [atoms viewer].
      now rewrite (nth_error_set_nth_same _ _ _ _ Ha).
  - unfold hover. now rewrite Ha.
Qed.

Lemma unhover_unlabeled i p : labeled i p = false -> unhover i p = p.
Proof.
  unfold labeled, unhover.
  destruct (nth_error (atoms p) i) as [a|]; [|reflexivity].
  destruct (label a); [discriminate|reflexivity].
Qed.

Lemma consistent_loaded model : consistent (loaded model).
Proof.
  split; cbn [loaded viewer labels atoms]; try contradiction.
  - constructor.
  - intros i a l H Hl. apply nth_error_In, in_map_iff in H as [[[rn ri] ch] [<- _]].
    discriminate Hl.
Qed.

Lemma in_remove_first n ls l : In l (remove_first n ls) -> In l ls.
Proof.
  induction ls as [|x ls IH]; simpl; [tauto|].
  destruct (Nat.eqb (lid x) n); simpl; tauto.
Qed.

Lemma remove_first_keeps n ls l :
  In l ls -> lid l <> n -> In l (remove_first n ls).
Proof.
  induction ls as [|x ls IH]; simpl; [tauto|].
  intros [->|H] Hn.
  - destruct (Nat.eqb_spec (lid l) n); [contradiction|now left].
  - destruct (Nat.eqb (lid x) n); [assumption|right; auto].
Qed.

Lemma remove_first_gone n ls l :
  NoDup (map lid ls) -> In l (remove_first n ls) -> lid l <> n.
Proof.
  induction ls as [|x ls IH]; simpl; [tauto|].
  intros Hnd. inversion Hnd as [|? ? Hx Hnd']; subst.
  destruct (Nat.eqb_spec (lid x) n) as [<-|Hne].
  - intros Hin Heq. apply Hx. rewrite <- Heq. now apply in_map.
  - intros [<-|Hin]; auto.
Qed.

Lemma remove_first_nodup n ls :
  NoDup (map lid ls) -> NoDup (map lid (remove_first n ls)).
Proof.
  induction ls as [|x ls IH]; simpl; [auto|].
  intros Hnd. inversion Hnd as [|? ? Hx Hnd']; subst.
  destruct (Nat.eqb (lid x) n); [assumption|].
  simpl. constructor; [|auto].
  intros Hin. apply Hx. apply in_map_iff in Hin as [l [Hl Hin]].
  apply in_map_iff. exists l. split; [assumption|].
  now apply in_remove_first in Hin.
Qed.

Lemma same_id_same_label ls l l' :
  NoDup (map lid ls) -> In l ls -> In l' ls -> lid l = lid l' -> l = l'.
Proof.
  induction ls as [|x ls IH]; simpl; [tauto|].
  intros Hnd. inversion Hnd as [|? ? Hx Hnd']; subst.
  intros [->|H] [->|H'] Heq; auto.
  - exfalso. apply Hx. rewrite Heq. now apply in_map.
  - exfalso. apply Hx. rewrite <- Heq. now apply in_map.
Qed.

Lemma consistent_hover i p : consistent p -> consistent (hover i p).
Proof.
  intros [Hf Hd Hhs Hsh]. unfold hover.
  destruct (nth_error (atoms p) i) as [a|] eqn:Ha; [|now split].
  destruct (label a) eqn:Hl; [now split|].
  unfold addLabel.
  set (l0 := mkLabel (next_lid (viewer p)) _ _ _ _ _ _ _).
  split; cbn [viewer labels atoms next_lid].
  - intros l Hin. apply in_app_or in Hin as [Hin|[<-|[]]].
    + specialize (Hf l Hin). lia.
    + cbn. lia.
  - rewrite map_app. cbn [map].
    apply NoDup_app; [assumption|repeat constructor; auto|].
    intros n Hin [<-|[]]. apply in_map_iff in Hin as [l [Heq Hin]].
    specialize (Hf l Hin). cbn in Heq. lia.
  - intros j a' l Hj Hl'. destruct (Nat.eq_dec i j) as [<-|Hij].
    + rewrite (nth_error_set_nth_same _ _ _ _ Ha) in Hj.
      injection Hj as <-. cbn in Hl'. injection Hl' as <-.
      split; [apply in_or_app; right; now left|reflexivity].
    + rewrite nth_error_set_nth_other in Hj by assumption.
      destruct (Hhs j a' l Hj Hl') as [Hin Hp].
      split; [apply in_or_app; now left|assumption].
  - intros l Hin. apply in_app_or in Hin as [Hin|[<-|[]]].
    + destruct (Hsh l Hin) as [a' [Ha' Hl']].
      destruct (Nat.eq_dec i (position l)) as [Heq|Hne].
      * rewrite <- Heq, Ha in Ha'. injection Ha' as <-. congruence.
      * exists a'. now rewrite nth_error_set_nth_other.
    + cbn [position l0]. eexists.
      split; [apply (nth_error_set_nth_same _ _ _ _ Ha)|reflexivity].
Qed.

Lemma consistent_unhover i p : consistent p -> consistent (unhover i p).
Proof.
  intros [Hf Hd Hhs Hsh]. unfold unhover.
  destruct (nth_error (atoms p) i) as [a|] eqn:Ha; [|now split].
  destruct (label a) as [l0|] eqn:Hl; [|now split].
  destruct (Hhs i a l0 Ha Hl) as [Hin0 Hp0].
  split; cbn [viewer labels atoms next_lid removeLabel].
  - intros l Hin. apply Hf. eapply in_remove_first; eassumption.
  - now apply remove_first_nodup.
  - intros j a' l Hj Hl'. destruct (Nat.eq_dec i j) as [<-|Hij].
    + rewrite (nth_error_set_nth_same _ _ _ _ Ha) in Hj.
      injection Hj as <-. discriminate Hl'.
    + rewrite nth_error_set_nth_other in Hj by assumption.
      destruct (Hhs j a' l Hj Hl') as [Hin Hp].
      split; [|assumption].
      apply remove_first_keeps; [assumption|].
      intros Heq. apply Hij.
      rewrite <- Hp0, <- Hp. f_equal. symmetry.
      now apply (same_id_same_label (labels (viewer p))).
  - intros l Hin.
    pose proof (remove_first_gone _ _ _ Hd Hin) as Hne.
    apply in_remove_first in Hin.
    destruct (Hsh l Hin) as [a' [Ha' Hl']].
    destruct (Nat.eq_dec i (position l)) as [Heq|Hnp].
    + rewrite <- Heq, Ha in Ha'. injection Ha' as <-. congruence.
    + exists a'. now rewrite nth_error_set_nth_other.
Qed.

Lemma reachable_consistent p : reachable p -> consistent p.
Proof.
  induction 1 as [model|p e _ IH]; [apply consistent_loaded|].
  destruct e; [now apply consistent_hover|now apply consistent_unhover].
Qed.

Lemma nodup_constant (ls : list Label) l :
  NoDup (map lid ls) -> (forall x, In x ls -> x = l) -> List.length ls <= 1.
Proof.
  intros Hnd Hall. destruct ls as [|x [|y ls]]; simpl; try lia.
  exfalso. inversion Hnd as [|? ? Hx _]; subst. apply Hx.
  rewrite (Hall x), <- (Hall y) by (simpl; auto). now left.
Qed.

Lemma nodup_filter (f : Label -> bool) ls :
  NoDup (map lid ls) -> NoDup (map lid (filter f ls)).
Proof.
  induction ls as [|x ls IH]; simpl; [auto|].
  intros Hnd. inversion Hnd as [|? ? Hx Hnd']; subst.
  destruct (f x); [|auto]. simpl. constructor; [|auto].
  intros Hin. apply Hx. apply in_map_iff in Hin as [l [Hl Hin]].
  apply in_map_iff. exists l. split; [assumption|].
  now apply filter_In in Hin.
Qed.

Lemma live_labeled i p :
  consistent p -> live i p = if labeled i p then 1 else 0.
Proof.
  intros [Hf Hd Hhs Hsh]. unfold live, labeled.
  set (here := filter _ _).
  assert (Hhere : forall x, In x here ->
            exists a, nth_error (atoms p) i = Some a /\ label a = Some x).
  { intros x Hx. apply filter_In in Hx as [Hin Hp].
    apply Nat.eqb_eq in Hp. rewrite <- Hp. now apply Hsh. }
  destruct (nth_error (atoms p) i) as [a|] eqn:Ha.
  - destruct (label a) as [l|] eqn:Hl.
    + assert (Hle : List.length here <= 1).
      { apply (nodup_constant here l); [now apply nodup_filter|].
        intros x Hx. destruct (Hhere x Hx) as [a' [Ha' Hl']].
        injection Ha' as <-. congruence. }
      assert (Hin : In l here).
      { destruct (Hhs i a l Ha Hl) as [Hin Hp].
        apply filter_In. split; [assumption|now apply Nat.eqb_eq]. }
      destruct here; [contradiction|]. simpl in *. lia.
    + destruct here as [|x r]; [reflexivity|].
      destruct (Hhere x (or_introl eq_refl)) as [a' [Ha' Hl']].
      injection Ha' as <-. congruence.
  - destruct here as [|x r]; [reflexivity|].
    destruct (Hhere x (or_introl eq_refl)) as [a' [Ha' _]]. discriminate.
Qed.

Lemma labeled_hover i p : labeled i (hover i p) = Nat.ltb i (List.length (atoms p)).
Proof.
  unfold labeled, hover.
  destruct (nth_error (atoms p) i) as [a|] eqn:Ha.
  - assert (Hlt : i < List.length (atoms p)) by (apply nth_error_Some; congruence).
    apply Nat.ltb_lt in Hlt. rewrite Hlt.
    destruct (label a) eqn:Hl.
    + now rewrite Ha, Hl.
    + unfold addLabel. cbn [atoms].
      now rewrite (nth_error_set_nth_same _ _ _ _ Ha).
  - rewrite Ha. symmetry. apply Nat.ltb_ge. now apply nth_error_None.
Qed.

(** C8.  On every page the user can reach, for every atom index: entering
    twice is the same as entering once and leaves exactly one label at an
    atom of the model; an atom is in one of two states, labeled with one
    live label or unlabeled with none, and leaving an unlabeled atom changes
    nothing; no atom ever has more than one live label. *)
Theorem hover_protocol p i :
  reachable p ->
  hover i (hover i p) = hover i p
  /\ live i (hover i (hover i p)) = (if Nat.ltb i (List.length (atoms p)) then 1 else 0)
  /\ (if labeled i p then live i p = 1 else live i p = 0 /\ unhover i p = p)
  /\ live i p <= 1.
Proof.
  intros Hr. pose proof (reachable_consistent p Hr) as Hc.
  split; [apply hover_idempotent|].
  split.
  { rewrite hover_idempotent, live_labeled by now apply consistent_hover.
    now rewrite labeled_hover. }
  pose proof (live_labeled i p Hc) as Hl.
  destruct (labeled i p) eqn:Hlab.
  - split; [assumption|lia].
  - split; [split; [assumption|now apply unhover_unlabeled]|lia].
Qed.

Lemma hover_protocol_witness :
  reachable (step Sample.page1 (Enter 0))
  /\ hover 0 (hover 0 (step Sample.page1 (Enter 0))) = hover 0 (step Sample.page1 (Enter 0))
  /\ live 0 (hover 0 (hover 0 (step Sample.page1 (Enter 0)))) = 1.
Proof.
  assert (Hr : reachable (step Sample.page1 (Enter 0)))
    by (apply reach_step, reach_loaded).
  split; [exact Hr|].
  destruct (hover_protocol _ 0 Hr) as [H1 [H2 _]].
  split; [exact H1|exact H2].
Defined.

End HoverFacts.

Module OsFacts.
Import PyStr Os WebUi Reader.
Local Arguments Ascii.eqb : simpl never.

Lemma loc_eqb_eq a b : loc_eqb a b = true <-> a = b.
Proof. unfold loc_eqb. destruct (list_eq_dec string_dec a b); split; congruence. Qed.

Lemma child_name_spec dir k nm :
  child_name dir k = Some nm <-> k = (dir ++ [nm])%list.
Proof.
  unfold child_name, parent. split.
  - destruct k as [|x k]; [discriminate|].
    destruct (loc_eqb (removelast (x :: k)) dir) eqn:E; [|discriminate].
    apply loc_eqb_eq in E. intros [= <-]. rewrite <- E.
    refine (@app_removelast_last _ (x :: k) "" _). discriminate.
  - intros ->. destruct (dir ++ [nm])%list eqn:E.
    + now destruct dir.
    + rewrite <- E, removelast_last, last_last.
      now replace (loc_eqb dir dir) with true by (symmetry; now apply loc_eqb_eq).
Qed.

Lemma names_in_spec dir suffix fs nm :
  In nm (names_in dir suffix fs) <->
  ends_with suffix nm = true /\ exists n, In ((dir ++ [nm])%list, n) fs.
Proof.
  unfold names_in. rewrite in_flat_map. split.
  - intros [[k n] [Hin H]].
    destruct (child_name dir k) as [nm'|] eqn:E; [|contradiction].
    destruct (ends_with suffix nm') eqn:Hs; [|contradiction].
    destruct H as [<-|[]]. apply child_name_spec in E. subst k.
    split; [assumption|now exists n].
  - intros [Hs [n Hin]]. exists ((dir ++ [nm])%list, n). split; [assumption|].
    replace (child_name dir (dir ++ [nm])%list) with (Some nm)
      by (symmetry; now apply child_name_spec).
    rewrite Hs. now left.
Qed.

Lemma glob_names p suffix w :
  glob p suffix w
  = if is_dir (files w) (locate w p)
    then map (child p) (names_in (locate w p) suffix (files w))
    else [].
Proof.
  unfold glob, names_in. destruct (is_dir (files w) (locate w p)); [|reflexivity].
  induction (files w) as [|[k n] fs IH]; [reflexivity|].
  cbn [flat_map]. rewrite map_app, IH. f_equal.
  destruct (child_name (locate w p) k); [|reflexivity].
  now destruct (ends_with suffix s).
Qed.

Lemma generated_files_structures job_dir w :
  generated_files job_dir w = structures_in (final_dir job_dir w) w.
Proof.
  unfold generated_files, structures_in. rewrite !glob_names.
  now destruct (is_dir (files w) (locate w (final_dir job_dir w))).
Qed.

Lemma name_child p nm : name (child p nm) = nm.
Proof. unfold name, child. cbn [parts]. apply last_last. Qed.

Lemma pdb_not_cif nm : ends_with ".pdb" nm = true -> ends_with ".cif" nm = false.
Proof.
  unfold ends_with, starts_with.
  change (rev ".pdb") with "bdp."; change (rev ".cif") with "fic.".
  destruct (rev nm) as [|a r]; [discriminate|].
  cbn [strip_prefix].
  destruct (Ascii.eqb_spec "b" a) as [<-|]; [reflexivity|discriminate].
Qed.

Lemma in_structures d w f :
  In f (structures_in d w) <->
  is_dir (files w) (locate w d) = true
  /\ exists nm n,
       f = child d nm
       /\ In ((locate w d ++ [nm])%list, n) (files w)
       /\ ends_with ".pdb" nm || ends_with ".cif" nm = true.
Proof.
  unfold structures_in. destruct (is_dir (files w) (locate w d)).
  - rewrite in_app_iff, !in_map_iff. split.
    + intros [[nm [<- H]]|[nm [<- H]]]; apply names_in_spec in H as [Hs [n Hin]];
        (split; [reflexivity|]); exists nm, n; rewrite Hs;
        repeat split; auto using orb_true_r.
    + intros [_ [nm [n [-> [Hin Hs]]]]]. apply orb_true_iff in Hs as [Hs|Hs];
        [left|right]; exists nm; (split; [reflexivity|]);
        apply names_in_spec; split; eauto.
  - split; [contradiction|]. now intros [H _].
Qed.

(** C5.  The searched directory is [final_ranked_designs] when that path
    exists and [intermediate_designs] otherwise.  Collecting never raises;
    the files found are exactly the entries of the searched directory whose
    name ends in [.pdb] or [.cif] (so entries of the other directory are
    never among them), and there are none when the searched path is not a
    directory, in particular when neither directory exists. *)
Theorem result_location job_dir w :
  let primary := div job_dir "final_ranked_designs" in
  let fallback := div job_dir "intermediate_designs" in
  let selected := final_dir job_dir w in
  selected = (if exists_ primary w then primary else fallback)
  /\ gets (generated_files job_dir) w = (Return (structures_in selected w), w)
  /\ (forall f, In f (generated_files job_dir w) <->
        is_dir (files w) (locate w selected) = true
        /\ exists nm n,
             f = child selected nm
             /\ In ((locate w selected ++ [nm])%list, n) (files w)
             /\ ends_with ".pdb" nm || ends_with ".cif" nm = true)
  /\ (exists_ primary w = false -> exists_ fallback w = false ->
      generated_files job_dir w = []).
Proof.
  cbv zeta. split; [reflexivity|]. split.
  { unfold gets. now rewrite generated_files_structures. }
  split.
  { intros f. rewrite generated_files_structures. apply in_structures. }
  intros Hp Hf. rewrite generated_files_structures.
  unfold structures_in, final_dir. rewrite Hp.
  unfold exists_ in Hf. unfold is_dir.
  destruct (node_at _ _); [discriminate|reflexivity].
Qed.

Lemma result_location_witness :
  exists_ (div Sample.job1 "final_ranked_designs") Sample.world1 = false
  /\ exists_ (div Sample.job1 "intermediate_designs") Sample.world1 = false
  /\ generated_files Sample.job1 Sample.world1 = []
  /\ generated_files Sample.job1 Sample.world2
     = [ child (div Sample.job1 "final_ranked_designs") "rank2.pdb";
         child (div Sample.job1 "final_ranked_designs") "rank1.cif" ].
Proof.
  split; [reflexivity|]. split; [reflexivity|]. split.
  - apply (result_location Sample.job1 Sample.world1); reflexivity.
  - reflexivity.
Defined.

Lemma structures_split d w :
  exists P C,
    structures_in d w = (P ++ C)%list
    /\ Forall (fun f => is_pdb f = true) P
    /\ Forall (fun f => is_cif f = true) C
    /\ (P = [] -> forall nm n,
           is_dir (files w) (locate w d) = true ->
           In ((locate w d ++ [nm])%list, n) (files w) ->
           ends_with ".pdb" nm = false).
Proof.
  unfold structures_in. destruct (is_dir (files w) (locate w d)).
  - eexists _, _. split; [reflexivity|]. split; [|split].
    + apply Forall_forall. intros f Hf. apply in_map_iff in Hf as [nm [<- H]].
      unfold is_pdb. rewrite name_child. now apply names_in_spec in H.
    + apply Forall_forall. intros f Hf. apply in_map_iff in Hf as [nm [<- H]].
      unfold is_cif. rewrite name_child. now apply names_in_spec in H.
    + intros HP nm n _ Hin. destruct (ends_with ".pdb" nm) eqn:Hs; [|reflexivity].
      assert (H : In nm (names_in (locate w d) ".pdb" (files w)))
        by (apply names_in_spec; eauto).
      apply (in_map (child d)) in H. rewrite HP in H. contradiction.
  - exists [], []. repeat split; auto. discriminate.
Qed.

(** C10.  In the list of found files every [.pdb] entry comes before every
    [.cif] entry, and when the searched directory has an entry whose name
    ends in [.pdb] the list is not empty and its first element, the one
    that is shown, is a [.pdb] entry. *)
Theorem pdb_before_cif job_dir w :
  (forall i j f g,
      nth_error (generated_files job_dir w) i = Some f ->
      nth_error (generated_files job_dir w) j = Some g ->
      is_pdb f = true -> is_cif g = true -> i < j)
  /\ (forall nm n,
         is_dir (files w) (locate w (final_dir job_dir w)) = true ->
         In ((locate w (final_dir job_dir w) ++ [nm])%list, n) (files w) ->
         ends_with ".pdb" nm = true ->
         exists best rest,
           generated_files job_dir w = best :: rest /\ is_pdb best = true).
Proof.
  rewrite generated_files_structures.
  destruct (structures_split (final_dir job_dir w) w) as [P [C [-> [HP [HC Hnone]]]]].
  split.
  - intros i j f g Hi Hj Hf Hg.
    assert (Hlt : i < List.length P).
    { destruct (Nat.lt_ge_cases i (List.length P)) as [|Hge]; [assumption|].
      rewrite nth_error_app2 in Hi by assumption.
      apply nth_error_In in Hi. rewrite Forall_forall in HC.
      apply HC in Hi. unfold is_pdb, is_cif in *.
      apply pdb_not_cif in Hf. congruence. }
    assert (Hge : List.length P <= j).
    { destruct (Nat.lt_ge_cases j (List.length P)) as [Hl|]; [|assumption].
      rewrite nth_error_app1 in Hj by assumption.
      apply nth_error_In in Hj. rewrite Forall_forall in HP.
      apply HP in Hj. unfold is_pdb, is_cif in *.
      apply pdb_not_cif in Hj. congruence. }
    lia.
  - intros nm n Hd Hin Hs. destruct P as [|best P'].
    + rewrite (Hnone eq_refl nm n Hd Hin) in Hs. discriminate.
    + exists best, (P' ++ C)%list. split; [reflexivity|].
      now inversion HP.
Qed.

Lemma pdb_before_cif_witness :
  nth_error (generated_files Sample.job1 Sample.world2) 0
  = Some (child (div Sample.job1 "final_ranked_designs") "rank2.pdb")
  /\ nth_error (generated_files Sample.job1 Sample.world2) 1
     = Some (child (div Sample.job1 "final_ranked_designs") "rank1.cif")
  /\ 0 < 1
  /\ exists best rest,
       generated_files Sample.job1 Sample.world2 = best :: rest /\ is_pdb best = true.
Proof.
  split; [reflexivity|]. split; [reflexivity|]. split.
  - apply (proj1 (pdb_before_cif Sample.job1 Sample.world2) 0 1
             (child (div Sample.job1 "final_ranked_designs") "rank2.pdb")
             (child (div Sample.job1 "final_ranked_designs") "rank1.cif"));
      reflexivity.
  - apply (proj2 (pdb_before_cif Sample.job1 Sample.world2) "rank2.pdb" (File "D"));
      [reflexivity| |reflexivity].
    cbn. do 8 right. now left.
Defined.
End OsFacts.

Module PathFacts.
Import PyStr Os WebUi Reader Observe StrFacts StripFacts OsFacts.
Local Arguments Ascii.eqb : simpl never.

Lemma split_clean sep s : Forall (fun c => contains sep c = false) (Os.split sep s).
Proof.
  induction s as [|a s IH]; simpl.
  - now constructor.
  - destruct (Ascii.eqb_spec a sep) as [->|Hne].
    + now constructor.
    + destruct (Os.split sep s) as [|h r]; inversion IH; subst; constructor; auto;
        simpl; rewrite ?H1; rewrite orb_false_r; apply Ascii.eqb_neq; congruence.
Qed.

(** A component of a parsed path, parsed again, is that one component. *)
Lemma Path_component s c :
  In c (parts (Path s)) -> Path c = mkPath false [c].
Proof.
  unfold Path at 1. cbn [parts]. intros H. apply filter_In in H as [Hin Hc].
  pose proof (split_clean "/" s) as Hall. rewrite Forall_forall in Hall.
  specialize (Hall c Hin).
  unfold Path. rewrite (split_no_sep "/" c Hall). cbn [filter]. rewrite Hc.
  f_equal. unfold starts_with. destruct c as [|a c]; [reflexivity|].
  cbn in Hall. cbn. apply orb_false_iff in Hall as [Ha _]. now rewrite Ha.
Qed.

Lemma basename_relative s : anchored (Path (basename s)) = false.
Proof.
  unfold basename.
  assert (H : contains "/" (last (Os.split "/" s) "") = false).
  { pose proof (split_clean "/" s) as Hall.
    induction (Os.split "/" s) as [|c l IH]; [reflexivity|].
    inversion Hall; subst. destruct l; [assumption|]. now apply IH. }
  destruct (last (Os.split "/" s) "") as [|a c]; [reflexivity|].
  cbn in H. apply orb_false_iff in H as [Ha _].
  unfold Path, starts_with. cbn. now rewrite Ha.
Qed.









End PathFacts.

Module RunFacts.
Import PyStr Os WebUi Html Reader Observe StrFacts StripFacts OsFacts PathFacts.
Local Arguments Ascii.eqb : simpl never.
Local Open Scope py_scope.


Lemma bind_returns {A B} (c : Py A) (k : A -> Py B) w a w' :
  c w = (Return a, w') -> bind c k w = k a w'.
Proof. intros H. unfold bind. now rewrite H. Qed.

Lemma bind_returned {A B} (c : Py A) (k : A -> Py B) w b w2 :
  bind c k w = (Return b, w2) ->
  exists a w1, c w = (Return a, w1) /\ k a w1 = (Return b, w2).
Proof.
  unfold bind. destruct (c w) as [[a|e] w1]; [|discriminate].
  intros H. now exists a, w1.
Qed.

Lemma bind_gets {A B} (f : world -> A) (k : A -> Py B) w :
  bind (gets f) k w = k (f w) w.
Proof. reflexivity. Qed.


Lemma is_hex_not_slash a : is_hex a = true -> Ascii.eqb "/" a = false.
Proof.
  intros H. destruct (Ascii.eqb_spec "/" a) as [<-|]; [discriminate H|reflexivity].
Qed.

Lemma uuid_head_no_slash u : uuid_text u = true -> contains "/" (take 8 u) = false.
Proof.
  unfold uuid_text. intros H.
  do 8 (destruct u as [|? u]; [discriminate H|];
        cbn [shaped] in H; apply andb_true_iff in H as [?%is_hex_not_slash H]).
  cbn [take substring contains].
  repeat match goal with E : Ascii.eqb _ _ = false |- _ => rewrite E; clear E end.
  destruct u; reflexivity.
Qed.

Lemma job_dir_parts u :
  uuid_text u = true ->
  job_dir_of u = mkPath false ["gradio_workspace"; job_id_of u].
Proof.
  intros H. apply uuid_head_no_slash in H.
  unfold job_dir_of, job_id_of, div, Path.
  rewrite (split_no_sep "/" ("run_" ++ take 8 u)) by exact H.
  reflexivity.
Qed.

Lemma entry_app_new fs k n : entry fs k = None -> entry (fs ++ [(k, n)])%list k = Some n.
Proof.
  induction fs as [|[k' n'] fs IH]; simpl.
  - intros _. now replace (loc_eqb k k) with true by (symmetry; now apply loc_eqb_eq).
  - destruct (loc_eqb k' k); [discriminate|exact IH].
Qed.

Lemma locate_base w : locate w BASE_WORK_DIR = (cwd w ++ ["gradio_workspace"])%list.
Proof. reflexivity. Qed.






(** The part of C3 that holds: without an input file the run launches
    nothing and, when it returns, returns the missing-input message. *)
Lemma no_input_short_circuits h u chain mn mx hs cyc proto nd bd st w :
  let '(r, w') := run_boltzgen_task h u None chain mn mx hs cyc proto nd bd st w in
  spawned w' = spawned w
  /\ match r with
     | Return out => out = (None, no_input)
     | Raise _ => True
     end.
Proof.
  unfold run_boltzgen_task, bind, mkdir_exist_ok, try_except, os_mkdir, raise, set_files, ret.
  destruct (node_at (files w) (locate w (job_dir_of u))).
  - cbn. destruct (is_dir _ _); split; auto.
  - destruct (node_at (files w) (parent _)) as [[|d]|]; cbn;
      try destruct (is_dir _ _); split; auto.
Qed.

Lemma mkdir_spawns_nothing p w r w' :
  mkdir_exist_ok p w = (r, w') -> spawned w' = spawned w.
Proof.
  unfold mkdir_exist_ok, try_except, os_mkdir, raise, set_files, ret.
  destruct (node_at (files w) (locate w p)).
  - cbn. destruct (is_dir _ _); now intros [= _ <-].
  - destruct (node_at (files w) (parent _)) as [[|d]|]; cbn;
      try destruct (is_dir _ _); now intros [= _ <-].
Qed.

(** What the run does with an upload that is not a file when the copy
    starts: it raises, in the world the creation of the job directory
    left, and so launches nothing. *)
Lemma unreadable_source_raises h u up chain mn mx hs cyc proto nd bd st w w0 :
  mkdir_exist_ok (job_dir_of u) w = (Return tt, w0) ->
  (forall d, node_at (files w0) (locate w0 (Path (upload_name up))) <> Some (File d)) ->
  exists e,
    run_boltzgen_task h u (Some up) chain mn mx hs cyc proto nd bd st w = (Raise e, w0)
    /\ spawned w0 = spawned w.
Proof.
  intros Hmk Hno.
  assert (Hcopy : forall dst, exists e, shutil_copy (upload_name up) dst w0 = (Raise e, w0)).
  { intros dst. unfold shutil_copy.
    destruct (_ && _); [now eexists|].
    unfold bind, open_read.
    destruct (negb (truthy (upload_name up))); [now eexists|].
    destruct (node_at (files w0) (locate w0 (Path (upload_name up)))) as [[|d]|] eqn:E;
      [now eexists| |now eexists].
    now destruct (Hno d). }
  destruct (Hcopy (div (job_dir_of u) (name (Path (upload_name up))))) as [e He].
  exists e. split; [|now apply (mkdir_spawns_nothing _ _ _ _ Hmk)].
  unfold run_boltzgen_task. cbv zeta.
  rewrite (bind_returns _ _ _ _ _ Hmk).
  unfold bind at 1. now rewrite He.
Qed.

(** C3 (fails on the code).  The claim: a source file that is missing or
    cannot be read gives a message for the user.  Line 164 copies the upload
    outside every [try]: for an upload whose path names no file the run
    raises [FileNotFoundError] and returns nothing (no tool is launched
    either). *)
Theorem missing_source_raises :
  let up := mkUpload "/tmp/gone.pdb" in
  let run := run_boltzgen_task Sample.host1 Sample.uuid (Some up) "A" 8 16 "" false
               "peptide-anything" 2 1 50 Sample.world1 in
  exists_ (Path (upload_name up)) Sample.world1 = false
  /\ fst run = Raise (FileNotFoundError "/tmp/gone.pdb")
  /\ spawned (snd run) = [].
Proof. cbv zeta. repeat split; vm_compute; reflexivity. Qed.

(** The page builder never raises and changes nothing. *)
Lemma iframe_total h pdb_path w :
  exists page, get_interactive_3dmol_iframe h pdb_path w = (Return page, w).
Proof.
  unfold get_interactive_3dmol_iframe.
  destruct (negb (truthy pdb_path)); [now eexists|].
  unfold try_except, read_text, bind, open_read.
  destruct (negb (truthy pdb_path)); [now eexists|].
  destruct (node_at (files w) (locate w (Path pdb_path))) as [[|d]|];
    [| destruct (names_directory pdb_path) |]; now eexists.
Qed.

Lemma iframe_same_status g h pdb_path w :
  get_interactive_3dmol_iframe (with_status g h) pdb_path w
  = get_interactive_3dmol_iframe h pdb_path w.
Proof. reflexivity. Qed.












Lemma prepared_path h u up chain mn mx hs cyc w yaml_path w1 :
  prepared h u up chain mn mx hs cyc w = (Return yaml_path, w1) ->
  yaml_path = div (job_dir_of u) "design_spec.yaml".
Proof.
  unfold prepared. intros H.
  apply bind_returned in H as [[] [wa [_ H]]].
  apply bind_returned in H as [[] [wb [_ H]]].
  unfold generate_config_yaml in H.
  apply bind_returned in H as [[] [wc [_ H]]].
  now injection H as <- _.
Qed.



End RunFacts.

(** * Further properties of the code *)

Module FsFacts.
Import PyStr Os WebUi Reader Observe StrFacts OsFacts PathFacts RunFacts.
Local Arguments Ascii.eqb : simpl never.
Local Open Scope py_scope.

Lemma loc_eqb_refl k : loc_eqb k k = true.
Proof. now apply loc_eqb_eq. Qed.

Lemma loc_eqb_neq a b : a <> b -> loc_eqb a b = false.
Proof.
  intros H. destruct (loc_eqb a b) eqn:E; [|reflexivity].
  apply loc_eqb_eq in E. contradiction.
Qed.

Lemma entry_put_same k n fs : entry (put k n fs) k = Some n.
Proof.
  induction fs as [|[k' n'] fs IH]; simpl.
  - now rewrite loc_eqb_refl.
  - destruct (loc_eqb k' k) eqn:E; simpl; [now rewrite loc_eqb_refl|now rewrite E].
Qed.

Lemma entry_put_other k k' n fs : k' <> k -> entry (put k n fs) k' = entry fs k'.
Proof.
  intros Hne. induction fs as [|[k0 n0] fs IH]; simpl.
  - now rewrite loc_eqb_neq by congruence.
  - destruct (loc_eqb k0 k) eqn:E; simpl.
    + apply loc_eqb_eq in E. subst k0.
      now rewrite !(loc_eqb_neq k k') by congruence.
    + now rewrite IH.
Qed.

Lemma entry_app_other k k' n fs : k' <> k -> entry (fs ++ [(k, n)])%list k' = entry fs k'.
Proof.
  intros Hne. induction fs as [|[k0 n0] fs IH]; simpl.
  - now rewrite loc_eqb_neq by congruence.
  - now rewrite IH.
Qed.

Lemma node_at_put_same k n fs : k <> [] -> node_at (put k n fs) k = Some n.
Proof. destruct k; [contradiction|]. intros _. apply entry_put_same. Qed.

Lemma node_at_put_other k k' n fs : k' <> k -> node_at (put k n fs) k' = node_at fs k'.
Proof. destruct k'; [reflexivity|]. apply entry_put_other. Qed.

Lemma node_at_app_other k k' n fs :
  k' <> k -> node_at (fs ++ [(k, n)])%list k' = node_at fs k'.
Proof. destruct k'; [reflexivity|]. apply entry_app_other. Qed.

Lemma is_prefix_refl a : is_prefix a a = true.
Proof. induction a as [|x a IH]; simpl; [reflexivity|]. now rewrite String.eqb_refl. Qed.

Lemma is_prefix_app a b : is_prefix a (a ++ b)%list = true.
Proof. induction a as [|x a IH]; simpl; [reflexivity|]. now rewrite String.eqb_refl. Qed.

Lemma not_under root k k' : is_prefix root k = true -> is_prefix root k' = false -> k' <> k.
Proof. intros H H' ->. congruence. Qed.

(** What [mkdir(exist_ok=True)] can do. *)
Lemma mkdir_exist_ok_cases p w r w' :
  mkdir_exist_ok p w = (r, w') ->
  (r = Return tt /\ w' = w /\ is_dir (files w) (locate w p) = true)
  \/ (r = Return tt
      /\ node_at (files w) (locate w p) = None
      /\ w' = mkWorld (cwd w) (files w ++ [(locate w p, Dir)])%list (console w) (spawned w))
  \/ (exists e, r = Raise e /\ w' = w /\ is_dir (files w) (locate w p) = false).
Proof.
  unfold mkdir_exist_ok, try_except, os_mkdir, raise, set_files, ret.
  destruct (node_at (files w) (locate w p)) as [n|] eqn:E.
  - destruct (is_dir (files w) (locate w p)) eqn:D; intros [= <- <-]; eauto 10.
  - assert (D : is_dir (files w) (locate w p) = false) by (unfold is_dir; now rewrite E).
    destruct (node_at (files w) (parent (locate w p))) as [[|d]|];
      try rewrite D; intros [= <- <-]; eauto 10.
Qed.

(** What [open(p, "w")] with a write can do. *)
Lemma write_text_cases p d w r w' :
  write_text p d w = (r, w') ->
  (r = Return tt
   /\ w' = mkWorld (cwd w) (put (locate w p) (File d) (files w)) (console w) (spawned w)
   /\ locate w p <> []
   /\ is_dir (files w) (locate w p) = false)
  \/ (exists e, r = Raise e /\ w' = w).
Proof.
  unfold write_text, raise, set_files, is_dir.
  destruct (locate w p) as [|x k] eqn:K.
  - cbn. intros [= <- <-]. eauto.
  - destruct (node_at (files w) (x :: k)) as [[|d0]|].
    + intros [= <- <-]. eauto.
    + intros [= <- <-]. left. repeat split; congruence.
    + destruct (node_at (files w) (parent (x :: k))) as [[|d0]|];
        intros [= <- <-]; eauto; left; repeat split; congruence.
Qed.

Lemma read_bytes_cases p w r w' :
  read_bytes p w = (r, w') ->
  w' = w
  /\ match r with
     | Return d => node_at (files w) (locate w p) = Some (File d)
     | Raise _ => forall d, node_at (files w) (locate w p) <> Some (File d)
     end.
Proof.
  unfold read_bytes, ret, raise.
  destruct (node_at (files w) (locate w p)) as [[|d0]|]; intros [= <- <-];
    split; auto; discriminate.
Qed.

Lemma open_read_cases s w r w' :
  open_read s w = (r, w') ->
  w' = w
  /\ match r with
     | Return d =>
         node_at (files w) (locate w (Path s)) = Some (File d)
         /\ truthy s = true /\ names_directory s = false
     | Raise _ => True
     end.
Proof.
  unfold open_read, ret, raise.
  destruct (truthy s); cbn [negb]; [|now intros [= <- <-]].
  destruct (node_at (files w) (locate w (Path s))) as [[|d0]|];
    [| destruct (names_directory s) |]; intros [= <- <-]; auto.
Qed.

Lemma locate_div p s w :
  anchored (Path s) = false ->
  locate w (div p s) = (locate w p ++ parts (Path s))%list.
Proof.
  intros H. unfold div. rewrite H. unfold locate, absolute. cbn [anchored parts].
  destruct (anchored p); [reflexivity|]. now rewrite app_assoc.
Qed.

Lemma name_cases s :
  name (Path s) = EmptyString /\ parts (Path s) = []
  \/ Path (name (Path s)) = mkPath false [name (Path s)].
Proof.
  unfold name. destruct (parts (Path s)) as [|c l] eqn:E; [now left|].
  right. apply (Path_component s). rewrite E.
  destruct (exists_last (l:=c :: l)) as [l' [x ->]]; [discriminate|].
  rewrite last_last. apply in_or_app. right. now left.
Qed.

Lemma name_relative s : anchored (Path (name (Path s))) = false.
Proof.
  destruct (name_cases s) as [[-> _]| ->]; reflexivity.
Qed.

Lemma under_div p s w :
  anchored (Path s) = false -> is_prefix (locate w p) (locate w (div p s)) = true.
Proof. intros H. rewrite (locate_div p s w H). apply is_prefix_app. Qed.

Lemma confined_refl root w : confined_to root w w.
Proof. repeat split. Qed.

Lemma confined_trans root w1 w2 w3 :
  confined_to root w1 w2 -> confined_to root w2 w3 -> confined_to root w1 w3.
Proof.
  intros (A1 & A2 & A3 & A4) (B1 & B2 & B3 & B4).
  repeat split; try congruence. intros k Hk. rewrite B4, A4; auto.
Qed.

Lemma confined_put root w k n :
  is_prefix root k = true ->
  confined_to root w (mkWorld (cwd w) (put k n (files w)) (console w) (spawned w)).
Proof.
  intros H. repeat split. intros k' Hk'. cbn [files].
  apply node_at_put_other. now apply (not_under root).
Qed.

Lemma confined_app root w k n :
  is_prefix root k = true ->
  confined_to root w (mkWorld (cwd w) (files w ++ [(k, n)])%list (console w) (spawned w)).
Proof.
  intros H. repeat split. intros k' Hk'. cbn [files].
  apply node_at_app_other. now apply (not_under root).
Qed.

Lemma write_text_confined root p d w r w' :
  is_prefix root (locate w p) = true ->
  write_text p d w = (r, w') -> confined_to root w w'.
Proof.
  intros Hu H. apply write_text_cases in H as [(_ & -> & _)|(e & _ & ->)].
  - now apply confined_put.
  - apply confined_refl.
Qed.

Lemma mkdir_confined p w r w' :
  mkdir_exist_ok p w = (r, w') -> confined_to (locate w p) w w'.
Proof.
  intros H. apply mkdir_exist_ok_cases in H as [(_ & -> & _)|[(_ & _ & ->)|(e & _ & -> & _)]].
  - apply confined_refl.
  - apply confined_app, is_prefix_refl.
  - apply confined_refl.
Qed.

Lemma locate_same_cwd w w' p : cwd w' = cwd w -> locate w' p = locate w p.
Proof. intros H. unfold locate, absolute. now rewrite H. Qed.

Lemma shutil_copy_confined root src dst w r w' :
  is_prefix root (locate w dst) = true ->
  shutil_copy src dst w = (r, w') -> confined_to root w w'.
Proof.
  intros Hu. unfold shutil_copy.
  set (dst' := if is_dir _ _ then _ else _).
  assert (Hd : is_prefix root (locate w dst') = true).
  { subst dst'. destruct (is_dir (files w) (locate w dst)); [|assumption].
    rewrite locate_div by apply basename_relative.
    revert Hu. generalize (locate w dst) as k. clear.
    induction root as [|x root IH]; intros [|y k]; simpl; auto; try discriminate.
    intros H. apply andb_true_iff in H as [-> H]. simpl. now apply IH. }
  destruct (_ && _).
  - intros [= <- <-]. apply confined_refl.
  - unfold bind. destruct (open_read src w) as [[d|e] w0] eqn:R;
      apply open_read_cases in R as [-> _].
    + now apply write_text_confined.
    + intros [= <- <-]. apply confined_refl.
Qed.

Theorem prepared_confined h u up chain mn mx hs cyc w r w1 :
  prepared h u up chain mn mx hs cyc w = (r, w1) ->
  confined_to (locate w (job_dir_of u)) w w1.
Proof.
  unfold prepared, bind.
  destruct (mkdir_exist_ok (job_dir_of u) w) as [[[]|e] w0] eqn:M;
    pose proof (mkdir_confined _ _ _ _ M) as C0;
    [|intros [= <- <-]; exact C0].
  assert (L0 : forall p, locate w0 p = locate w p)
    by (intros p; apply locate_same_cwd, C0).
  destruct (shutil_copy _ _ w0) as [[[]|e] w0'] eqn:S.
  - assert (C1 : confined_to (locate w (job_dir_of u)) w0 w0').
    { eapply shutil_copy_confined; [|exact S].
      rewrite <- (L0 (job_dir_of u)). apply under_div, name_relative. }
    assert (L1 : forall p, locate w0' p = locate w p).
    { intros p. rewrite (locate_same_cwd w0 w0') by apply C1. apply L0. }
    unfold generate_config_yaml, bind.
    destruct (write_text _ _ w0') as [[[]|e] w2] eqn:W;
      intros [= <- <-]; (eapply confined_trans; [exact C0|]);
      (eapply confined_trans; [exact C1|]);
      (eapply write_text_confined; [|exact W]);
      rewrite L1; now apply under_div.
  - intros [= <- <-]. eapply confined_trans; [exact C0|].
    eapply shutil_copy_confined; [|exact S].
    rewrite <- (L0 (job_dir_of u)). apply under_div, name_relative.
Qed.

End FsFacts.


Module PrepareFacts.
Import PyStr Os WebUi Reader Observe StrFacts OsFacts RunFacts FsFacts.
Local Arguments Ascii.eqb : simpl never.
Local Open Scope py_scope.

Lemma locate_spec_file work w :
  locate w (div work "design_spec.yaml") = (locate w work ++ ["design_spec.yaml"])%list.
Proof. now rewrite locate_div. Qed.

Lemma parent_child k c : parent (k ++ [c])%list = k.
Proof. unfold parent. apply removelast_last. Qed.

Lemma generate_config_yaml_cases h work pdb chain mn mx hs cyc w :
  let yaml_path := div work "design_spec.yaml" in
  let text := yaml_dump h (config_data pdb chain mn mx hs cyc) in
  match generate_config_yaml h work pdb chain mn mx hs cyc w with
  | (Return p, w') =>
      p = yaml_path
      /\ node_at (files w') (locate w' yaml_path) = Some (File text)
      /\ (forall k, k <> locate w yaml_path -> node_at (files w') k = node_at (files w) k)
      /\ cwd w' = cwd w /\ console w' = console w /\ spawned w' = spawned w
      /\ is_dir (files w) (locate w yaml_path) = false
  | (Raise e, w') =>
      w' = w
      /\ (is_dir (files w) (locate w yaml_path) = true
          \/ is_dir (files w) (locate w work) = false)
  end.
Proof.
  cbv zeta. unfold generate_config_yaml, bind.
  destruct (write_text _ _ w) as [[[]|e] w'] eqn:W.
  - apply write_text_cases in W as [(_ & -> & Hk & Hd)|(e & [=] & _)].
    cbn [ret files cwd console spawned].
    change (locate (mkWorld (cwd w) _ (console w) (spawned w)) (div work "design_spec.yaml"))
      with (locate w (div work "design_spec.yaml")).
    repeat split; auto.
    + now apply node_at_put_same.
    + intros k Hne. now apply node_at_put_other.
  - pose proof W as W'. apply write_text_cases in W' as [([=] & _)|(e' & _ & ->)].
    split; [reflexivity|].
    revert W. unfold write_text, raise, set_files, is_dir.
    rewrite locate_spec_file, parent_child.
    destruct (node_at (files w) (locate w work ++ ["design_spec.yaml"])%list) as [[|d0]|];
      [auto|discriminate|].
    destruct (node_at (files w) (locate w work)) as [[|d0]|]; [discriminate|auto|auto].
Qed.

Lemma locate_saved u s w :
  locate w (div (job_dir_of u) (name (Path s)))
  = (locate w (job_dir_of u) ++ parts (Path (name (Path s))))%list.
Proof. apply locate_div, name_relative. Qed.

Lemma app_one_neq {A} (k : list A) c : (k ++ [c])%list <> k.
Proof.
  intros H. apply (f_equal (@List.length A)) in H. rewrite length_app in H. simpl in H. lia.
Qed.

(** X8.  When the steps before the launch succeed for an upload whose base
    name is not empty and not [design_spec.yaml], and no directory stands
    where the copy goes, the job directory holds, under the upload's base
    name, a file with the text of the upload. *)
Theorem upload_stored h u up chain mn mx hs cyc w yaml_path w1 :
  let nm := name (Path (upload_name up)) in
  let saved := div (job_dir_of u) nm in
  prepared h u up chain mn mx hs cyc w = (Return yaml_path, w1) ->
  nm <> EmptyString ->
  nm <> "design_spec.yaml" ->
  is_dir (files w) (locate w saved) = false ->
  name saved = nm
  /\ exists d,
       node_at (files w) (locate w (Path (upload_name up))) = Some (File d)
       /\ node_at (files w1) (locate w1 saved) = Some (File d).
Proof.
  cbv zeta. intros Hprep Hnm Hspec Hdir.
  destruct (name_cases (upload_name up)) as [[Hn _]|HP]; [contradiction|].
  assert (Ks : forall w', cwd w' = cwd w ->
                          locate w' (div (job_dir_of u) (name (Path (upload_name up))))
                          = (locate w (job_dir_of u) ++ [name (Path (upload_name up))])%list).
  { intros w' Hc. rewrite (locate_same_cwd w w' _ Hc).
    rewrite locate_saved. now rewrite HP. }
  unfold prepared in Hprep.
  set (nm := name (Path (upload_name up))) in *.
  set (job := job_dir_of u) in *.
  split.
  { unfold name, div. rewrite HP. cbn [anchored parts]. apply last_last. }
  apply bind_returned in Hprep as [[] [w0 [Hmk Hprep]]].
  apply bind_returned in Hprep as [[] [w0' [Hcp Hgen]]].
  assert (C0 : cwd w0 = cwd w) by (apply (mkdir_confined _ _ _ _ Hmk)).
  assert (N0 : forall k, k <> locate w job -> node_at (files w0) k = node_at (files w) k).
  { apply mkdir_exist_ok_cases in Hmk as [(_ & -> & _)|[(_ & _ & ->)|(e & [=] & _)]];
      [reflexivity|]. intros k Hk. now apply node_at_app_other. }
  assert (Hsaved : locate w (div job nm) <> locate w job)
    by (rewrite (Ks w eq_refl); apply app_one_neq).
  unfold shutil_copy in Hcp.
  assert (D0 : is_dir (files w0) (locate w0 (div job nm)) = false).
  { rewrite (locate_same_cwd w w0 _ C0). unfold is_dir. rewrite N0 by assumption.
    exact Hdir. }
  rewrite D0 in Hcp.
  destruct (_ && _) eqn:Same in Hcp; [discriminate Hcp|].
  apply bind_returned in Hcp as [d [w0a [Hrd Hwr]]].
  apply open_read_cases in Hrd as [-> [Hsrc _]].
  apply write_text_cases in Hwr as [(_ & -> & _ & _)|(e & [=] & _)].
  assert (Hne : locate w0 (Path (upload_name up)) <> locate w job).
  { intros Heq. rewrite Heq in Hsrc.
    apply mkdir_exist_ok_cases in Hmk as [(_ & -> & Hd)|[(_ & Hnone & ->)|(e & [=] & _)]].
    - unfold is_dir in Hd. rewrite Hsrc in Hd. discriminate.
    - cbn [files] in Hsrc. unfold node_at in Hsrc, Hnone.
      destruct (locate w job) as [|x k]; [discriminate|].
      rewrite entry_app_new in Hsrc by assumption. discriminate. }
  exists d. split.
  { rewrite <- (locate_same_cwd w w0 _ C0), <- N0 by assumption. exact Hsrc. }
  pose proof (generate_config_yaml_cases h job (div job nm) chain mn mx hs cyc
                (mkWorld (cwd w0) (put (locate w0 (div job nm)) (File d) (files w0))
                         (console w0) (spawned w0))) as G.
  cbv zeta in G. rewrite Hgen in G. destruct G as (_ & _ & Hother & Hc & _).
  rewrite (locate_same_cwd _ w1 _ Hc).
  change (locate (mkWorld (cwd w0) _ (console w0) (spawned w0)) (div job nm))
    with (locate w0 (div job nm)).
  rewrite Hother.
  - cbn [files]. apply node_at_put_same.
    rewrite (Ks w0 C0). now destruct (locate w job).
  - change (locate (mkWorld (cwd w0) _ (console w0) (spawned w0)) (div job "design_spec.yaml"))
      with (locate w0 (div job "design_spec.yaml")).
    rewrite (Ks w0 C0), locate_spec_file, (locate_same_cwd w w0 _ C0).
    intros Heq. apply app_inj_tail in Heq as [_ Heq]. contradiction.
Qed.

(** X7.  An upload whose base name is [design_spec.yaml] is copied to the
    very path the specification is written to: after the steps before the
    launch that path holds the specification, not the upload. *)
Theorem upload_named_like_spec_is_overwritten h u up chain mn mx hs cyc w yaml_path w1 :
  let saved := div (job_dir_of u) (name (Path (upload_name up))) in
  prepared h u up chain mn mx hs cyc w = (Return yaml_path, w1) ->
  name (Path (upload_name up)) = "design_spec.yaml" ->
  yaml_path = saved
  /\ node_at (files w1) (locate w1 saved)
     = Some (File (yaml_dump h (config_data saved chain mn mx hs cyc))).
Proof.
  cbv zeta. intros Hprep Hnm. rewrite Hnm in *.
  unfold prepared in Hprep. rewrite Hnm in Hprep.
  apply bind_returned in Hprep as [[] [w0 [_ Hprep]]].
  apply bind_returned in Hprep as [[] [w0' [_ Hgen]]].
  pose proof (generate_config_yaml_cases h (job_dir_of u)
                (div (job_dir_of u) "design_spec.yaml") chain mn mx hs cyc w0') as G.
  cbv zeta in G. rewrite Hgen in G. destruct G as (-> & Hfile & _).
  split; [reflexivity|exact Hfile].
Qed.

Lemma put_put k n fs : put k n (put k n fs) = put k n fs.
Proof.
  induction fs as [|[k' n'] fs IH]; simpl.
  - now rewrite loc_eqb_refl.
  - destruct (loc_eqb k' k) eqn:E; simpl; [now rewrite loc_eqb_refl|].
    now rewrite E, IH.
Qed.

(** X6.  When [generate_config_yaml] returns, it returns
    [work_dir / "design_spec.yaml"], that file reads back as the dumped
    specification, every other location is as before, and generating again
    changes nothing.  When it raises, nothing was written, and the
    specification path was a directory or the work directory was none. *)
Theorem generate_config_yaml_writes h work pdb chain mn mx hs cyc w :
  let yaml_path := div work "design_spec.yaml" in
  let text := yaml_dump h (config_data pdb chain mn mx hs cyc) in
  match generate_config_yaml h work pdb chain mn mx hs cyc w with
  | (Return p, w') =>
      p = yaml_path
      /\ read_bytes yaml_path w' = (Return text, w')
      /\ generate_config_yaml h work pdb chain mn mx hs cyc w' = (Return yaml_path, w')
      /\ (forall k, k <> locate w yaml_path -> node_at (files w') k = node_at (files w) k)
  | (Raise e, w') =>
      w' = w
      /\ (is_dir (files w) (locate w yaml_path) = true
          \/ is_dir (files w) (locate w work) = false)
  end.
Proof.
  cbv zeta.
  pose proof (generate_config_yaml_cases h work pdb chain mn mx hs cyc w) as G.
  cbv zeta in G.
  destruct (generate_config_yaml h work pdb chain mn mx hs cyc w) as [[p|e] w'] eqn:E;
    [|exact G].
  destruct G as (-> & Hfile & Hother & Hc & _ & _ & _).
  split; [reflexivity|]. split; [|split; [|exact Hother]].
  - unfold read_bytes. now rewrite Hfile.
  - revert E. unfold generate_config_yaml, bind.
    destruct (write_text _ _ w) as [[[]|e] w0] eqn:W; [|discriminate].
    intros [= <-].
    apply write_text_cases in W as [(_ & -> & Hk & _)|(e & [=] & _)].
    unfold write_text.
    change (locate (mkWorld (cwd w) _ (console w) (spawned w)) (div work "design_spec.yaml"))
      with (locate w (div work "design_spec.yaml")).
    cbn [files]. rewrite (node_at_put_same _ _ _ Hk).
    unfold set_files. cbn [cwd files console spawned ret]. now rewrite put_put.
Qed.

End PrepareFacts.


Module OutcomeFacts.
Import PyStr Os WebUi Reader Observe StrFacts OsFacts RunFacts FsFacts PrepareFacts.
Local Arguments Ascii.eqb : simpl never.
Local Open Scope py_scope.

(** The run with an input file, step by step. *)
Lemma run_steps h u up chain mn mx hs cyc proto nd bd st w :
  run_boltzgen_task h u (Some up) chain mn mx hs cyc proto nd bd st w
  = let job := job_dir_of u in
    let saved := div job (name (Path (upload_name up))) in
    match mkdir_exist_ok job w with
    | (Raise e, w0) => (Raise e, w0)
    | (Return _, w0) =>
        match shutil_copy (upload_name up) saved w0 with
        | (Raise e, w0') => (Raise e, w0')
        | (Return _, w0') =>
            match generate_config_yaml h job saved chain mn mx hs cyc w0' with
            | (Raise e, w1) => (Return (None, "Config Error: " ++ str_exn h e), w1)
            | (Return yaml_path, w1) =>
                let cmd := command yaml_path job proto nd bd st w1 in
                match (print ("Executing: " ++ join " " cmd) ;;
                       subprocess_run h cmd (str job)) w1 with
                | (Raise e, w2) => (Return (None, "System Error: " ++ str_exn h e), w2)
                | (Return process, w2) =>
                    let logs := logs_of (join " " cmd) process in
                    match generated_files job w2 with
                    | [] => (Return (None, "未找到结果文件。" ++ chr LF ++ logs), w2)
                    | best :: _ =>
                        match get_interactive_3dmol_iframe h (str best) w2 with
                        | (Return page, w3) => (Return (Some page, logs), w3)
                        | (Raise e, w3) => (Raise e, w3)
                        end
                    end
                end
            end
        end
    end.
Proof.
  cbv zeta. unfold run_boltzgen_task. cbv zeta. unfold bind at 1.
  destruct (mkdir_exist_ok (job_dir_of u) w) as [[[]|e] w0]; [|reflexivity].
  unfold bind at 1.
  destruct (shutil_copy _ _ w0) as [[[]|e] w0']; [|reflexivity].
  unfold bind at 1, attempt at 1.
  destruct (generate_config_yaml _ _ _ _ _ _ _ _ w0') as [[yp|e] w1]; [|reflexivity].
  rewrite bind_gets.
  rewrite (bind_returns _ _ _ _ _ (eq_refl : print _ w1 = (Return tt, _))).
  rewrite (bind_returns (print _) _ _ _ _ (eq_refl : print _ w1 = (Return tt, _))).
  unfold bind at 1, attempt at 1, bind at 1.
  destruct (subprocess_run _ _ _ _) as [[p|e] w2]; [|reflexivity].
  cbn [ret]. rewrite bind_gets.
  destruct (generated_files (job_dir_of u) w2); reflexivity.
Qed.

End OutcomeFacts.


Module OutcomeFacts2.
Import PyStr Os WebUi Reader Observe StrFacts OsFacts RunFacts FsFacts PrepareFacts OutcomeFacts.
Local Arguments Ascii.eqb : simpl never.
Local Open Scope py_scope.

Lemma iframe_keeps_world h s w r w' :
  get_interactive_3dmol_iframe h s w = (r, w') -> w' = w /\ exists page, r = Return page.
Proof.
  destruct (iframe_total h s w) as [page ->]. intros [= <- <-]. eauto.
Qed.

Lemma copy_spawns_nothing src dst w r w' :
  shutil_copy src dst w = (r, w') -> spawned w' = spawned w /\ console w' = console w.
Proof.
  intros H.
  destruct (shutil_copy_confined [] src dst w r w' eq_refl H) as (_ & ? & ? & _). auto.
Qed.

Lemma mkdir_keeps_console p w r w' :
  mkdir_exist_ok p w = (r, w') -> spawned w' = spawned w /\ console w' = console w.
Proof. intros H. destruct (mkdir_confined _ _ _ _ H) as (_ & ? & ? & _). auto. Qed.

Lemma generate_keeps_console h work pdb chain mn mx hs cyc w r w' :
  generate_config_yaml h work pdb chain mn mx hs cyc w = (r, w') ->
  spawned w' = spawned w /\ console w' = console w.
Proof.
  intros H. pose proof (generate_config_yaml_cases h work pdb chain mn mx hs cyc w) as G.
  cbv zeta in G. rewrite H in G. destruct r.
  - destruct G as (_ & _ & _ & _ & ? & ? & _). auto.
  - destruct G as (-> & _). auto.
Qed.

Lemma launch_cases h cmd dir w r w' :
  subprocess_run h cmd dir w = (r, w') ->
  cwd w' = cwd w /\ console w' = console w /\ spawned w' = (spawned w ++ [cmd])%list
  /\ (is_dir (files w) (locate w (Path dir)) = true ->
      files w' = snd (exec h cmd (locate w (Path dir)) (files w)))
  /\ (is_dir (files w) (locate w (Path dir)) = false -> files w' = files w).
Proof.
  unfold subprocess_run. destruct (is_dir (files w) (locate w (Path dir))).
  - destruct (exec h cmd (locate w (Path dir)) (files w)) as [[e|p] fs];
      intros [= <- <-]; repeat split; auto; discriminate.
  - intros [= <- <-]. repeat split; auto; discriminate.
Qed.

(** X10.  A run raises only while it sets up: the exception is the one
    from creating the job directory or from copying the upload, and nothing
    has been launched.  Everything after the copy ends in a returned
    pair. *)
Theorem run_raises_only_at_setup h u input chain mn mx hs cyc proto nd bd st w e :
  fst (run_boltzgen_task h u input chain mn mx hs cyc proto nd bd st w) = Raise e ->
  spawned (snd (run_boltzgen_task h u input chain mn mx hs cyc proto nd bd st w)) = spawned w
  /\ (fst (mkdir_exist_ok (job_dir_of u) w) = Raise e
      \/ exists up w0,
           input = Some up
           /\ mkdir_exist_ok (job_dir_of u) w = (Return tt, w0)
           /\ fst (shutil_copy (upload_name up)
                     (div (job_dir_of u) (name (Path (upload_name up)))) w0) = Raise e).
Proof.
  destruct input as [up|].
  - rewrite run_steps. cbv zeta.
    destruct (mkdir_exist_ok (job_dir_of u) w) as [[[]|e0] w0] eqn:M.
    + destruct (shutil_copy _ _ w0) as [[[]|e1] w0'] eqn:S.
      * destruct (generate_config_yaml _ _ _ _ _ _ _ _ w0') as [[yp|e2] w1];
          [|discriminate].
        destruct ((_ ;; _) w1) as [[p|e3] w2]; [|discriminate].
        destruct (generated_files _ w2) as [|best rest]; [discriminate|].
        destruct (get_interactive_3dmol_iframe h (str best) w2) as [r w3] eqn:I.
        apply iframe_keeps_world in I as [_ [page ->]]. discriminate.
      * cbn [fst snd]. intros [= ->]. split.
        -- destruct (copy_spawns_nothing _ _ _ _ _ S) as [-> _].
           now destruct (mkdir_keeps_console _ _ _ _ M).
        -- right. exists up, w0. rewrite S. auto.
    + cbn [fst snd]. intros [= ->]. split; [now destruct (mkdir_keeps_console _ _ _ _ M)|].
      now left.
  - unfold run_boltzgen_task. cbv zeta. unfold bind.
    destruct (mkdir_exist_ok (job_dir_of u) w) as [[[]|e0] w0] eqn:M; [discriminate|].
    cbn [fst snd]. intros [= ->]. split; [now destruct (mkdir_keeps_console _ _ _ _ M)|].
    now left.
Qed.

(** X11.  When the job directory is made and the upload copied but the
    specification cannot be written, the run returns no page and the text
    "Config Error: " with the text of the exception, in the state the copy
    left: nothing is launched and nothing printed. *)
Theorem config_error_returned h u up chain mn mx hs cyc proto nd bd st w w0 e w1 :
  let job := job_dir_of u in
  let saved := div job (name (Path (upload_name up))) in
  (mkdir_exist_ok job ;; shutil_copy (upload_name up) saved) w = (Return tt, w0) ->
  generate_config_yaml h job saved chain mn mx hs cyc w0 = (Raise e, w1) ->
  run_boltzgen_task h u (Some up) chain mn mx hs cyc proto nd bd st w
  = (Return (None, "Config Error: " ++ str_exn h e), w0)
  /\ spawned w0 = spawned w
  /\ console w0 = console w.
Proof.
  cbv zeta. intros Hset Hgen.
  apply bind_returned in Hset as [[] [wa [Hmk Hcp]]].
  pose proof (generate_config_yaml_cases h (job_dir_of u)
                (div (job_dir_of u) (name (Path (upload_name up)))) chain mn mx hs cyc w0) as G.
  cbv zeta in G. rewrite Hgen in G. destruct G as [-> _].
  split.
  - rewrite run_steps. cbv zeta. now rewrite Hmk, Hcp, Hgen.
  - destruct (mkdir_keeps_console _ _ _ _ Hmk) as [<- <-].
    now destruct (copy_spawns_nothing _ _ _ _ _ Hcp).
Qed.

Lemma prepared_steps h u up chain mn mx hs cyc w yaml_path w1 :
  prepared h u up chain mn mx hs cyc w = (Return yaml_path, w1) ->
  exists w0 w0',
    mkdir_exist_ok (job_dir_of u) w = (Return tt, w0)
    /\ shutil_copy (upload_name up)
         (div (job_dir_of u) (name (Path (upload_name up)))) w0 = (Return tt, w0')
    /\ generate_config_yaml h (job_dir_of u)
         (div (job_dir_of u) (name (Path (upload_name up)))) chain mn mx hs cyc w0'
       = (Return yaml_path, w1).
Proof.
  unfold prepared. intros H.
  apply bind_returned in H as [[] [w0 [Hmk H]]].
  apply bind_returned in H as [[] [w0' [Hcp Hgen]]].
  now exists w0, w0'.
Qed.

(** X12.  When the tool cannot be launched, the run returns no page and
    the text "System Error: " with the text of the exception. *)
Theorem launch_failure_returned h u up chain mn mx hs cyc proto nd bd st w yaml_path w1 e w2 :
  prepared h u up chain mn mx hs cyc w = (Return yaml_path, w1) ->
  let cmd := command yaml_path (job_dir_of u) proto nd bd st w1 in
  (print ("Executing: " ++ join " " cmd) ;;
   subprocess_run h cmd (str (job_dir_of u))) w1 = (Raise e, w2) ->
  run_boltzgen_task h u (Some up) chain mn mx hs cyc proto nd bd st w
  = (Return (None, "System Error: " ++ str_exn h e), w2).
Proof.
  intros Hprep cmd Hrun.
  destruct (prepared_steps _ _ _ _ _ _ _ _ _ _ _ Hprep) as (w0 & w0' & Hmk & Hcp & Hgen).
  rewrite run_steps. cbv zeta. rewrite Hmk, Hcp, Hgen. fold cmd. now rewrite Hrun.
Qed.

(** X13.  When the tool has run and no structure file is found, the run
    returns no page and the no-results message, a line feed, and the log:
    the command line (the fourteen words of lines 173-180), the captured
    output and the captured errors under their headings. *)
Theorem no_results_reported h u up chain mn mx hs cyc proto nd bd st w yaml_path w1 process w2 :
  prepared h u up chain mn mx hs cyc w = (Return yaml_path, w1) ->
  let cmd := command yaml_path (job_dir_of u) proto nd bd st w1 in
  (print ("Executing: " ++ join " " cmd) ;;
   subprocess_run h cmd (str (job_dir_of u))) w1 = (Return process, w2) ->
  generated_files (job_dir_of u) w2 = [] ->
  run_boltzgen_task h u (Some up) chain mn mx hs cyc proto nd bd st w
  = (Return (None,
             "未找到结果文件。" ++ chr LF
               ++ "=== CMD ===" ++ chr LF
               ++ join " " [ "boltzgen"; "run";
                             str (absolute w1 (div (job_dir_of u) "design_spec.yaml"));
                             "--output"; str (absolute w1 (job_dir_of u));
                             "--protocol"; proto;
                             "--num_designs"; str_int nd;
                             "--budget"; str_int bd;
                             "--config"; "design"; "sampling.steps=" ++ str_int st ]
               ++ chr LF ++ chr LF
               ++ "=== STDOUT ===" ++ chr LF ++ stdout process ++ chr LF
               ++ "=== STDERR ===" ++ chr LF ++ stderr process), w2).
Proof.
  intros Hprep cmd Hrun Hnone.
  destruct (prepared_steps _ _ _ _ _ _ _ _ _ _ _ Hprep) as (w0 & w0' & Hmk & Hcp & Hgen).
  pose proof (prepared_path _ _ _ _ _ _ _ _ _ _ _ Hprep) as Hyp.
  rewrite run_steps. cbv zeta. rewrite Hmk, Hcp, Hgen. fold cmd. rewrite Hrun, Hnone.
  subst cmd. rewrite Hyp. reflexivity.
Qed.

(** X14.  A run launches at most one process and prints at most one line.
    When it launches, the steps before the launch had succeeded, the
    specification file was in place with the dumped specification, the
    argument vector is [command], and the printed line is "Executing: "
    with the vector joined by spaces; otherwise nothing is launched and
    nothing printed. *)
Theorem at_most_one_launch h u input chain mn mx hs cyc proto nd bd st w :
  let w' := snd (run_boltzgen_task h u input chain mn mx hs cyc proto nd bd st w) in
  (spawned w' = spawned w /\ console w' = console w)
  \/ exists up yaml_path w1,
       input = Some up
       /\ prepared h u up chain mn mx hs cyc w = (Return yaml_path, w1)
       /\ node_at (files w1) (locate w1 yaml_path)
          = Some (File (yaml_dump h
                          (config_data (div (job_dir_of u) (name (Path (upload_name up))))
                             chain mn mx hs cyc)))
       /\ spawned w' = (spawned w ++ [command yaml_path (job_dir_of u) proto nd bd st w1])%list
       /\ console w'
          = (console w
               ++ [("Executing: "
                      ++ join " " (command yaml_path (job_dir_of u) proto nd bd st w1))%string])%list.
Proof.
  cbv zeta. destruct input as [up|].
  - rewrite run_steps. cbv zeta.
    destruct (mkdir_exist_ok (job_dir_of u) w) as [[[]|e0] w0] eqn:M;
      pose proof (mkdir_keeps_console _ _ _ _ M) as [Ms Mc]; [|left; auto].
    destruct (shutil_copy _ _ w0) as [[[]|e1] w0'] eqn:S;
      pose proof (copy_spawns_nothing _ _ _ _ _ S) as [Ss Sc];
      [|left; cbn [snd]; split; congruence].
    destruct (generate_config_yaml _ _ _ _ _ _ _ _ w0') as [[yp|e2] w1] eqn:G;
      pose proof (generate_keeps_console _ _ _ _ _ _ _ _ _ _ _ G) as [Gs Gc];
      [|left; cbn [snd]; split; congruence].
    right. exists up, yp, w1. split; [reflexivity|].
    assert (Hprep : prepared h u up chain mn mx hs cyc w = (Return yp, w1)).
    { unfold prepared. rewrite (bind_returns _ _ _ _ _ M), (bind_returns _ _ _ _ _ S).
      exact G. }
    split; [exact Hprep|]. split.
    { pose proof (generate_config_yaml_cases h (job_dir_of u)
                    (div (job_dir_of u) (name (Path (upload_name up))))
                    chain mn mx hs cyc w0') as W.
      cbv zeta in W. rewrite G in W. destruct W as (-> & W & _). exact W. }
    set (cmd := command yp (job_dir_of u) proto nd bd st w1).
    rewrite (bind_returns _ _ _ _ _ (eq_refl : print _ w1 = (Return tt, _))).
    destruct (subprocess_run h cmd _ _) as [r w2] eqn:L.
    apply launch_cases in L as (_ & Lc & Ls & _). cbn [console spawned] in Lc, Ls.
    assert (Hs : spawned w2 = (spawned w ++ [cmd])%list) by congruence.
    assert (Hc : console w2 = (console w ++ [("Executing: " ++ join " " cmd)%string])%list)
      by congruence.
    destruct r as [p|e3]; [|cbn [snd]; auto].
    destruct (generated_files _ w2) as [|best rest]; [cbn [snd]; auto|].
    destruct (get_interactive_3dmol_iframe h (str best) w2) as [r w3] eqn:I.
    apply iframe_keeps_world in I as [-> [page ->]]. cbn [snd]. auto.
  - left. unfold run_boltzgen_task. cbv zeta. unfold bind.
    destruct (mkdir_exist_ok (job_dir_of u) w) as [[[]|e0] w0] eqn:M;
      pose proof (mkdir_keeps_console _ _ _ _ M) as [Ms Mc]; cbn [snd ret]; auto.
Qed.

(** X9.  A run changes no file outside its job directory, provided the
    tool does not: every location that is not the job directory or below it
    holds after the run what it held before, and the working directory is
    the same. *)
Theorem run_confined h u input chain mn mx hs cyc proto nd bd st w :
  (forall cmd fs k,
      is_prefix (locate w (job_dir_of u)) k = false ->
      node_at (snd (exec h cmd (locate w (Path (str (job_dir_of u)))) fs)) k = node_at fs k) ->
  let w' := snd (run_boltzgen_task h u input chain mn mx hs cyc proto nd bd st w) in
  cwd w' = cwd w
  /\ forall k,
       is_prefix (locate w (job_dir_of u)) k = false ->
       node_at (files w') k = node_at (files w) k.
Proof.
  intros Htool. cbv zeta. destruct input as [up|].
  - rewrite run_steps. cbv zeta.
    destruct (mkdir_exist_ok (job_dir_of u) w) as [[[]|e0] w0] eqn:M;
      [|destruct (mkdir_confined _ _ _ _ M) as (? & _ & _ & ?); auto].
    destruct (shutil_copy _ _ w0) as [[[]|e1] w0'] eqn:S.
    2:{ assert (P : prepared h u up chain mn mx hs cyc w = (Raise e1, w0')).
        { unfold prepared. rewrite (bind_returns _ _ _ _ _ M). unfold bind. now rewrite S. }
        destruct (prepared_confined _ _ _ _ _ _ _ _ _ _ _ P) as (? & _ & _ & ?). auto. }
    destruct (generate_config_yaml _ _ _ _ _ _ _ _ w0') as [r1 w1] eqn:G.
    assert (P : exists r, prepared h u up chain mn mx hs cyc w = (r, w1)).
    { unfold prepared. rewrite (bind_returns _ _ _ _ _ M), (bind_returns _ _ _ _ _ S).
      eauto. }
    destruct P as [r P].
    destruct (prepared_confined _ _ _ _ _ _ _ _ _ _ _ P) as (Pc & _ & _ & Pf).
    destruct r1 as [yp|e2]; [|auto].
    set (cmd := command yp (job_dir_of u) proto nd bd st w1).
    rewrite (bind_returns _ _ _ _ _ (eq_refl : print _ w1 = (Return tt, _))).
    destruct (subprocess_run h cmd _ _) as [r2 w2] eqn:L.
    apply launch_cases in L as (Lw & _ & _ & Lrun & Lnot).
    cbn [cwd files] in Lw, Lrun, Lnot.
    change (locate (mkWorld (cwd w1) (files w1) _ (spawned w1)) (Path (str (job_dir_of u))))
      with (locate w1 (Path (str (job_dir_of u)))) in Lrun, Lnot.
    rewrite (locate_same_cwd w w1 _ Pc) in Lrun, Lnot.
    assert (F2 : forall k, is_prefix (locate w (job_dir_of u)) k = false ->
                           node_at (files w2) k = node_at (files w) k).
    { intros k Hk. rewrite <- (Pf k Hk).
      destruct (is_dir (files w1) (locate w (Path (str (job_dir_of u))))).
      - rewrite (Lrun eq_refl). now apply Htool.
      - now rewrite (Lnot eq_refl). }
    assert (C2 : cwd w2 = cwd w) by congruence.
    destruct r2 as [p|e3]; [|auto].
    destruct (generated_files _ w2) as [|best rest]; [auto|].
    destruct (get_interactive_3dmol_iframe h (str best) w2) as [r3 w3] eqn:I.
    apply iframe_keeps_world in I as [-> [page ->]]. auto.
  - unfold run_boltzgen_task. cbv zeta. unfold bind.
    destruct (mkdir_exist_ok (job_dir_of u) w) as [[[]|e0] w0] eqn:M;
      destruct (mkdir_confined _ _ _ _ M) as (? & _ & _ & ?); auto.
Qed.

End OutcomeFacts2.


Module RenderFacts.
Import PyStr Os WebUi Js Html Layout Reader Observe JsValue.
Import StrFacts EscapeFacts StripFacts HtmlFacts PathFacts RunFacts FsFacts.
Local Arguments Ascii.eqb : simpl never.
Local Open Scope py_scope.

(** X1.  The page builder, and the preview handler that calls it, never
    raise and change nothing: for every upload (or none) and every state of
    the files they return a text, the state being what it was. *)
Theorem preview_never_raises h x w :
  exists page, preview h x w = (Return page, w).
Proof.
  destruct x as [f|]; [apply iframe_total|now exists EmptyString].
Qed.


(** X3.  Whatever a file holds, the text read from it and escaped by line
    31 has no raw line feed and no carriage return, and each of its quotes
    directly follows a backslash. *)
Theorem escaped_text_has_no_line_break d :
  let e := escaped_pdb (universal_newlines d) in
  contains LF e = false /\ contains CR e = false /\ quotes_prefixed false e = true.
Proof.
  cbv zeta. split; [apply escaped_pdb_no_newline|]. split; [|apply escaped_pdb_quotes_prefixed].
  unfold escaped_pdb.
  apply contains_replace_other; [reflexivity|].
  apply contains_replace_other; [reflexivity|].
  apply universal_newlines_no_CR.
Qed.









End RenderFacts.

Module BindingFacts.
Import PyStr Os WebUi Reader StrFacts StripFacts SpecFacts.
Local Arguments Ascii.eqb : simpl never.

Lemma only_spaces_blank s :
  keep_chars (fun a => negb (Ascii.eqb a SPACE)) s = EmptyString -> blank s.
Proof.
  unfold blank. induction s as [|a s IH]; [constructor|].
  cbn [keep_chars]. destruct (Ascii.eqb_spec a SPACE) as [->|Hne]; cbn [negb].
  - intros H. change (String SPACE s) with (" " ++ s).
    constructor; [|auto]. unfold whitespace. apply in_map_iff.
    exists [32]. split; [reflexivity|]. simpl. tauto.
  - discriminate.
Qed.

(** X5.  The binding annotation is never the empty text: a hotspot text
    that would be cleaned to nothing gets no annotation at all. *)
Theorem binding_never_empty pdb chain mn mx hs cyc :
  binding (config_data pdb chain mn mx hs cyc) <> Some (YStr EmptyString).
Proof.
  unfold binding, target_file, config_data.
  rewrite truthy_strip, replace_empty_keep.
  destruct (truthy (strip hs)) eqn:T; cbn; [|discriminate].
  intros [= H]. apply only_spaces_blank, strip_blank in H. congruence.
Qed.

End BindingFacts.


Module WorkspaceFacts.
Import PyStr Os WebUi Reader Observe StrFacts StripFacts OsFacts RunFacts FsFacts.
Local Arguments Ascii.eqb : simpl never.
Local Open Scope py_scope.

Lemma uuid_head_length u : uuid_text u = true -> String.length (take 8 u) = 8.
Proof.
  unfold uuid_text. intros H.
  do 8 (destruct u as [|? u]; [discriminate H|];
        cbn [shaped] in H; apply andb_true_iff in H as [_ H]).
  cbn [take substring String.length]. now destruct u.
Qed.

(** X15.  For identifiers as [uuid.uuid4()] draws them, the job directory
    is the entry [run_] plus eight characters of the work directory, and two
    identifiers give the same job directory exactly when they agree on
    their first eight characters. *)
Theorem job_dir_shared_iff u1 u2 :
  uuid_text u1 = true -> uuid_text u2 = true ->
  (job_dir_of u1 = job_dir_of u2 <-> take 8 u1 = take 8 u2)
  /\ String.length (job_id_of u1) = 12
  /\ parts (job_dir_of u1) = ["gradio_workspace"; job_id_of u1].
Proof.
  intros H1 H2. rewrite (job_dir_parts u1 H1), (job_dir_parts u2 H2).
  split; [|split; [|reflexivity]].
  - unfold job_id_of. split.
    + intros [= H]. exact H.
    + now intros ->.
  - unfold job_id_of. rewrite length_append, (uuid_head_length u1 H1). reflexivity.
Qed.

Lemma job_dir_shared_iff_witness :
  uuid_text Sample.uuid = true /\ uuid_text Sample2.uuid2 = true
  /\ Sample.uuid <> Sample2.uuid2
  /\ job_dir_of Sample.uuid = job_dir_of Sample2.uuid2.
Proof.
  split; [reflexivity|]. split; [reflexivity|]. split; [discriminate|].
  apply (proj1 (job_dir_shared_iff Sample.uuid Sample2.uuid2 eq_refl eq_refl)).
  reflexivity.
Defined.

Lemma mkdir_existing p w :
  is_dir (files w) (locate w p) = true -> mkdir_exist_ok p w = (Return tt, w).
Proof.
  intros H. unfold mkdir_exist_ok, try_except, os_mkdir, raise, ret.
  unfold is_dir in H.
  destruct (node_at (files w) (locate w p)) as [[|d]|] eqn:E; try discriminate H.
  unfold is_dir. now rewrite E.
Qed.

(** X16.  When the job directory exists already, a submission without an
    input file returns the missing-input message and leaves every file,
    the console and the launched processes exactly as they were. *)
Theorem existing_job_dir_reused h u chain mn mx hs cyc proto nd bd st w :
  is_dir (files w) (locate w (job_dir_of u)) = true ->
  run_boltzgen_task h u None chain mn mx hs cyc proto nd bd st w
  = (Return (None, no_input), w).
Proof.
  intros H. unfold run_boltzgen_task. cbv zeta.
  now rewrite (bind_returns _ _ _ _ _ (mkdir_existing _ _ H)).
Qed.

Lemma existing_job_dir_reused_witness :
  is_dir (files Sample2.world4) (locate Sample2.world4 (job_dir_of Sample.uuid)) = true
  /\ snd (run_boltzgen_task Sample.host1 Sample.uuid None "A" 8 16 "" false
            "peptide-anything" 2 1 50 Sample2.world4)
     = Sample2.world4.
Proof.
  split; [reflexivity|].
  now rewrite (existing_job_dir_reused Sample.host1 Sample.uuid "A" 8 16 "" false
                 "peptide-anything" 2 1 50 Sample2.world4 eq_refl).
Defined.

(** X17.  Creating the work directory when the module is loaded (line 12)
    either succeeds, after which the directory is there, nothing outside it
    has changed and creating it again changes nothing, or raises with
    nothing changed, the path not being a directory. *)
Theorem module_init_idempotent w :
  match module_init w with
  | (Return _, w1) =>
      is_dir (files w1) (locate w1 BASE_WORK_DIR) = true
      /\ module_init w1 = (Return tt, w1)
      /\ confined_to (locate w BASE_WORK_DIR) w w1
  | (Raise _, w1) =>
      w1 = w /\ is_dir (files w) (locate w BASE_WORK_DIR) = false
  end.
Proof.
  unfold module_init.
  destruct (mkdir_exist_ok BASE_WORK_DIR w) as [[[]|e] w1] eqn:M.
  - pose proof (mkdir_confined _ _ _ _ M) as C.
    assert (D : is_dir (files w1) (locate w1 BASE_WORK_DIR) = true).
    { apply mkdir_exist_ok_cases in M as [(_ & -> & Hd)|[(_ & Hn & ->)|(e & [=] & _)]];
        [exact Hd|].
      change (locate (mkWorld (cwd w) _ (console w) (spawned w)) BASE_WORK_DIR)
        with (locate w BASE_WORK_DIR).
      cbn [files]. unfold is_dir, node_at in *.
      rewrite locate_base in *. destruct (cwd w ++ ["gradio_workspace"])%list eqn:E.
      - now destruct (cwd w).
      - now rewrite entry_app_new. }
    split; [exact D|]. split; [now apply mkdir_existing|exact C].
  - apply mkdir_exist_ok_cases in M as [([=] & _)|[([=] & _)|(e' & _ & -> & Hd)]]. auto.
Qed.

End WorkspaceFacts.

Module HoverFacts2.
Import PyStr Hover Observe HoverFacts.

Lemma filter_remove_first_other (f : Label -> bool) n ls :
  (forall x, In x ls -> lid x = n -> f x = false) ->
  filter f (remove_first n ls) = filter f ls.
Proof.
  induction ls as [|x ls IH]; intros H; [reflexivity|].
  cbn [remove_first]. destruct (Nat.eqb_spec (lid x) n) as [E|E].
  - cbn [filter]. now rewrite (H x (or_introl eq_refl) E).
  - cbn [filter]. rewrite IH; [reflexivity|]. intros y Hy. apply H. now right.
Qed.

(** X18.  On a reachable page, entering or leaving one atom leaves every
    other atom and the labels shown at it as they were. *)
Theorem hover_leaves_other_atoms p i j :
  reachable p -> i <> j ->
  live j (hover i p) = live j p
  /\ live j (unhover i p) = live j p
  /\ nth_error (atoms (hover i p)) j = nth_error (atoms p) j
  /\ nth_error (atoms (unhover i p)) j = nth_error (atoms p) j.
Proof.
  intros Hr Hij. pose proof (reachable_consistent p Hr) as [Hf Hd Hhs Hsh].
  unfold live, hover, unhover.
  destruct (nth_error (atoms p) i) as [a|] eqn:Ha; [|auto].
  destruct (label a) as [l|] eqn:Hl.
  - destruct (Hhs i a l Ha Hl) as [Hin Hp].
    repeat split; cbn [viewer labels atoms removeLabel].
    + f_equal. apply filter_remove_first_other.
      intros x Hx He. apply Nat.eqb_neq.
      rewrite (same_id_same_label _ x l Hd Hx Hin He). congruence.
    + now apply nth_error_set_nth_other.
  - unfold addLabel. repeat split; cbn [viewer labels atoms].
    + rewrite filter_app. cbn [filter position].
      destruct (Nat.eqb_spec i j); [contradiction|]. now rewrite app_nil_r.
    + now apply nth_error_set_nth_other.
Qed.

Lemma hover_leaves_other_atoms_witness :
  reachable Sample.page1 /\ 0 <> 1
  /\ live 1 (hover 0 Sample.page1) = live 1 Sample.page1.
Proof.
  split; [apply reach_loaded|]. split; [discriminate|].
  apply (hover_leaves_other_atoms Sample.page1 0 1 (reach_loaded _)). discriminate.
Defined.

Lemma set_nth_same {A} (l : list A) i a : nth_error l i = Some a -> set_nth i a l = l.
Proof.
  revert i. induction l as [|y l IH]; intros [|i]; simpl; try discriminate.
  - now intros [= ->].
  - intros H. now rewrite IH.
Qed.

Lemma set_nth_twice {A} (l : list A) i x y : set_nth i y (set_nth i x l) = set_nth i y l.
Proof.
  revert i. induction l as [|z l IH]; intros [|i]; simpl; auto. now rewrite IH.
Qed.

Lemma remove_first_last n ls l :
  lid l = n -> (forall x, In x ls -> lid x <> n) -> remove_first n (ls ++ [l]) = ls.
Proof.
  intros Hl. induction ls as [|x ls IH]; intros H; simpl.
  - now replace (Nat.eqb (lid l) n) with true by (symmetry; now apply Nat.eqb_eq).
  - destruct (Nat.eqb_spec (lid x) n) as [E|E]; [now destruct (H x (or_introl eq_refl))|].
    rewrite IH; [reflexivity|]. intros y Hy. apply H. now right.
Qed.

(** X19.  On a reachable page, entering an unlabeled atom and leaving it
    again restores the atoms and the labels the viewer shows. *)
Theorem enter_then_leave p i :
  reachable p -> labeled i p = false ->
  atoms (unhover i (hover i p)) = atoms p
  /\ labels (viewer (unhover i (hover i p))) = labels (viewer p).
Proof.
  intros Hr Hlab. pose proof (reachable_consistent p Hr) as [Hf _ _ _].
  unfold labeled in Hlab. unfold hover.
  destruct (nth_error (atoms p) i) as [a|] eqn:Ha.
  - destruct (label a) eqn:Hl; [discriminate|].
    unfold addLabel, unhover. cbn [atoms viewer].
    rewrite (nth_error_set_nth_same _ _ _ _ Ha). cbn [label set_label].
    cbn [removeLabel labels lid]. split.
    + rewrite set_nth_twice. apply set_nth_same. rewrite Ha. f_equal.
      destruct a. cbn in *. now subst.
    + apply remove_first_last; [reflexivity|].
      intros x Hx. specialize (Hf x Hx). cbn [lid]. lia.
  - unfold unhover. now rewrite Ha.
Qed.

Lemma enter_then_leave_witness :
  reachable Sample.page1 /\ labeled 0 Sample.page1 = false
  /\ atoms (unhover 0 (hover 0 Sample.page1)) = atoms Sample.page1.
Proof.
  split; [apply reach_loaded|]. split; [reflexivity|].
  apply (enter_then_leave Sample.page1 0 (reach_loaded _) eq_refl).
Defined.

Lemma labeled_atoms_set (atoms : list Atom) i a a' :
  nth_error atoms i = Some a ->
  List.length (filter (fun a => match label a with Some _ => true | None => false end)
                      (set_nth i a' atoms))
  + match label a with Some _ => 1 | None => 0 end
  = List.length (filter (fun a => match label a with Some _ => true | None => false end) atoms)
    + match label a' with Some _ => 1 | None => 0 end.
Proof.
  revert i. induction atoms as [|y l IH]; intros [|i]; simpl; try discriminate.
  - intros [= ->]. destruct (label a), (label a'); simpl; lia.
  - intros H. specialize (IH i H). destruct (label y); simpl; lia.
Qed.

Lemma length_remove_first n ls l :
  In l ls -> lid l = n -> S (List.length (remove_first n ls)) = List.length ls.
Proof.
  induction ls as [|x ls IH]; simpl; [tauto|].
  intros Hin Hl. destruct (Nat.eqb_spec (lid x) n) as [E|E]; [reflexivity|].
  destruct Hin as [->|Hin]; [contradiction|]. simpl. now rewrite IH.
Qed.

(** X20.  On every reachable page the viewer shows exactly as many labels
    as there are atoms holding one: no label is left behind. *)
Theorem labels_match_labeled_atoms p :
  reachable p -> List.length (labels (viewer p)) = labeled_atoms p.
Proof.
  induction 1 as [model|p e Hr IH].
  - unfold labeled_atoms, loaded. cbn [viewer labels atoms].
    induction model as [|[[rn ri] ch] model IHm]; [reflexivity|exact IHm].
  - pose proof (reachable_consistent p Hr) as [_ _ Hhs _].
    unfold labeled_atoms in *. destruct e as [i|i]; cbn [step]; unfold hover, unhover.
    + destruct (nth_error (atoms p) i) as [a|] eqn:Ha; [|exact IH].
      destruct (label a) eqn:Hl; [exact IH|].
      unfold addLabel. cbn [viewer labels atoms].
      pose proof (labeled_atoms_set (atoms p) i a
                    (set_label a (Some (mkLabel (next_lid (viewer p)) (labelText a) i
                                          "rgba(0,0,0, 0.7)" "white" 12 4 (0, -10)%Z))) Ha) as E.
      rewrite Hl in E. cbn [label set_label] in E.
      rewrite length_app. cbn [List.length]. lia.
    + destruct (nth_error (atoms p) i) as [a|] eqn:Ha; [|exact IH].
      destruct (label a) as [l|] eqn:Hl; [|exact IH].
      cbn [viewer labels atoms removeLabel].
      pose proof (labeled_atoms_set (atoms p) i a (set_label a None) Ha) as E.
      rewrite Hl in E. cbn [label set_label] in E.
      destruct (Hhs i a l Ha Hl) as [Hin _].
      pose proof (length_remove_first (lid l) _ l Hin eq_refl). lia.
Qed.

Lemma labels_match_labeled_atoms_witness :
  reachable (step (step Sample.page1 (Enter 0)) (Enter 1))
  /\ List.length (labels (viewer (step (step Sample.page1 (Enter 0)) (Enter 1)))) = 2.
Proof.
  assert (Hr : reachable (step (step Sample.page1 (Enter 0)) (Enter 1)))
    by (do 2 apply reach_step; apply reach_loaded).
  split; [exact Hr|].
  rewrite (labels_match_labeled_atoms _ Hr). reflexivity.
Defined.

End HoverFacts2.


Module ExtraWitnesses.
Import PyStr Os WebUi Js Html Layout Reader Observe JsValue.
Import StrFacts EscapeFacts StripFacts OsFacts RunFacts.
Import FsFacts PrepareFacts OutcomeFacts OutcomeFacts2 RenderFacts.
Local Arguments Ascii.eqb : simpl never.
Local Open Scope py_scope.

Lemma upload_named_like_spec_is_overwritten_witness :
  let up := mkUpload "/tmp/design_spec.yaml" in
  let w1 := snd (prepared Sample.host1 Sample.uuid up "A" 8 16 "" false Sample2.world5) in
  name (Path (upload_name up)) = "design_spec.yaml"
  /\ node_at (files Sample2.world5) (locate Sample2.world5 (Path (upload_name up)))
     = Some (File "ATOM      1  N   GLY A   1")
  /\ node_at (files w1) (locate w1 (div (job_dir_of Sample.uuid) "design_spec.yaml"))
     = Some (File "entities: ...").
Proof.
  cbv zeta. split; [reflexivity|]. split; [reflexivity|].
  apply (upload_named_like_spec_is_overwritten Sample.host1 Sample.uuid
           (mkUpload "/tmp/design_spec.yaml") "A" 8 16 "" false Sample2.world5
           (div (job_dir_of Sample.uuid) "design_spec.yaml")
           (snd (prepared Sample.host1 Sample.uuid (mkUpload "/tmp/design_spec.yaml")
                   "A" 8 16 "" false Sample2.world5))).
  - vm_compute. reflexivity.
  - reflexivity.
Defined.

Lemma upload_stored_witness :
  let up := mkUpload "/tmp/target.pdb" in
  let w1 := snd (prepared Sample.host1 Sample.uuid up "A" 8 16 "" false Sample.world1) in
  name (div (job_dir_of Sample.uuid) (name (Path (upload_name up)))) = "target.pdb"
  /\ exists d,
       node_at (files Sample.world1) (locate Sample.world1 (Path (upload_name up)))
       = Some (File d)
       /\ node_at (files w1)
            (locate w1 (div (job_dir_of Sample.uuid) (name (Path (upload_name up)))))
          = Some (File d).
Proof.
  cbv zeta.
  apply (upload_stored Sample.host1 Sample.uuid (mkUpload "/tmp/target.pdb")
           "A" 8 16 "" false Sample.world1
           (div (job_dir_of Sample.uuid) "design_spec.yaml")
           (snd (prepared Sample.host1 Sample.uuid (mkUpload "/tmp/target.pdb")
                   "A" 8 16 "" false Sample.world1))).
  - vm_compute. reflexivity.
  - discriminate.
  - discriminate.
  - reflexivity.
Defined.

Lemma failing_tool_stays_inside cmd dir fs k :
  is_prefix dir k = false ->
  node_at (snd (Sample.failing_tool cmd dir fs)) k = node_at fs k.
Proof.
  intros H. unfold Sample.failing_tool. cbn [snd].
  change (fs ++ [((dir ++ ["intermediate_designs"])%list, Dir);
                 ((dir ++ ["intermediate_designs"; "design_0.pdb"])%list,
                  File "ATOM      1  N   ALA A   1")])%list
    with (fs ++ [((dir ++ ["intermediate_designs"])%list, Dir)]
             ++ [((dir ++ ["intermediate_designs"; "design_0.pdb"])%list,
                  File "ATOM      1  N   ALA A   1")])%list.
  rewrite app_assoc.
  rewrite !node_at_app_other; [reflexivity| |];
    apply (not_under dir); auto using is_prefix_app.
Qed.

Lemma run_confined_witness :
  let w' := snd (run_boltzgen_task Sample.host1 Sample.uuid (Some (mkUpload "/tmp/target.pdb"))
                   "A" 8 16 "" false "peptide-anything" 2 1 50 Sample.world1) in
  node_at (files w') ["tmp"; "target.pdb"]
  = node_at (files Sample.world1) ["tmp"; "target.pdb"]
  /\ node_at (files w') ["srv"; "gradio_workspace"; "run_123e4567"; "target.pdb"]
     = Some (File "ATOM      1  N   GLY A   1").
Proof.
  cbv zeta. split; [|reflexivity].
  apply (run_confined Sample.host1 Sample.uuid (Some (mkUpload "/tmp/target.pdb"))
           "A" 8 16 "" false "peptide-anything" 2 1 50 Sample.world1).
  - intros cmd fs k Hk. now apply failing_tool_stays_inside.
  - reflexivity.
Defined.

Lemma run_raises_only_at_setup_witness :
  let run := run_boltzgen_task Sample.host1 Sample.uuid (Some (mkUpload "/tmp/gone.pdb"))
               "A" 8 16 "" false "peptide-anything" 2 1 50 Sample.world1 in
  fst run = Raise (FileNotFoundError "/tmp/gone.pdb")
  /\ spawned (snd run) = spawned Sample.world1.
Proof.
  cbv zeta. split; [reflexivity|].
  apply (run_raises_only_at_setup Sample.host1 Sample.uuid (Some (mkUpload "/tmp/gone.pdb"))
           "A" 8 16 "" false "peptide-anything" 2 1 50 Sample.world1
           (FileNotFoundError "/tmp/gone.pdb")).
  reflexivity.
Defined.

Lemma config_error_returned_witness :
  let up := mkUpload "/tmp/target.pdb" in
  fst (run_boltzgen_task Sample.host1 Sample.uuid (Some up) "A" 8 16 "" false
         "peptide-anything" 2 1 50 Sample2.world4)
  = Return (None,
            "Config Error: Is a directory: gradio_workspace/run_123e4567/design_spec.yaml").
Proof.
  cbv zeta.
  pose (saved := div (job_dir_of Sample.uuid) "target.pdb").
  pose (w0 := snd ((mkdir_exist_ok (job_dir_of Sample.uuid) ;;
                    shutil_copy "/tmp/target.pdb" saved) Sample2.world4)).
  rewrite (proj1 (config_error_returned Sample.host1 Sample.uuid (mkUpload "/tmp/target.pdb")
                    "A" 8 16 "" false "peptide-anything" 2 1 50 Sample2.world4 w0
                    (IsADirectoryError "gradio_workspace/run_123e4567/design_spec.yaml") w0
                    eq_refl eq_refl)).
  reflexivity.
Defined.

Lemma launch_failure_returned_witness :
  let up := mkUpload "/tmp/target.pdb" in
  fst (run_boltzgen_task Sample2.host3 Sample.uuid (Some up) "A" 8 16 "" false
         "peptide-anything" 2 1 50 Sample.world1)
  = Return (None, "System Error: No such file or directory: boltzgen").
Proof.
  cbv zeta.
  pose (yp := div (job_dir_of Sample.uuid) "design_spec.yaml").
  pose (w1 := snd (prepared Sample2.host3 Sample.uuid (mkUpload "/tmp/target.pdb")
                     "A" 8 16 "" false Sample.world1)).
  pose (cmd := command yp (job_dir_of Sample.uuid) "peptide-anything" 2 1 50 w1).
  pose (w2 := snd ((print ("Executing: " ++ join " " cmd) ;;
                    subprocess_run Sample2.host3 cmd (str (job_dir_of Sample.uuid))) w1)).
  rewrite (launch_failure_returned Sample2.host3 Sample.uuid (mkUpload "/tmp/target.pdb")
             "A" 8 16 "" false "peptide-anything" 2 1 50 Sample.world1 yp w1
             (FileNotFoundError "boltzgen") w2).
  - reflexivity.
  - vm_compute. reflexivity.
  - vm_compute. reflexivity.
Defined.

Lemma no_results_reported_witness :
  let up := mkUpload "/tmp/target.pdb" in
  fst (run_boltzgen_task Sample2.host2 Sample.uuid (Some up) "A" 8 16 "" false
         "peptide-anything" 2 1 50 Sample.world1)
  = Return (None,
            "未找到结果文件。" ++ chr LF
              ++ "=== CMD ===" ++ chr LF
              ++ "boltzgen run /srv/gradio_workspace/run_123e4567/design_spec.yaml"
              ++ " --output /srv/gradio_workspace/run_123e4567"
              ++ " --protocol peptide-anything --num_designs 2 --budget 1"
              ++ " --config design sampling.steps=50"
              ++ chr LF ++ chr LF
              ++ "=== STDOUT ===" ++ chr LF ++ "done" ++ chr LF
              ++ "=== STDERR ===" ++ chr LF).
Proof.
  cbv zeta.
  pose (yp := div (job_dir_of Sample.uuid) "design_spec.yaml").
  pose (w1 := snd (prepared Sample2.host2 Sample.uuid (mkUpload "/tmp/target.pdb")
                     "A" 8 16 "" false Sample.world1)).
  pose (cmd := command yp (job_dir_of Sample.uuid) "peptide-anything" 2 1 50 w1).
  pose (w2 := snd ((print ("Executing: " ++ join " " cmd) ;;
                    subprocess_run Sample2.host2 cmd (str (job_dir_of Sample.uuid))) w1)).
  rewrite (no_results_reported Sample2.host2 Sample.uuid (mkUpload "/tmp/target.pdb")
             "A" 8 16 "" false "peptide-anything" 2 1 50 Sample.world1 yp w1
             (mkProcess 0 "done" "") w2).
  - vm_compute. reflexivity.
  - vm_compute. reflexivity.
  - vm_compute. reflexivity.
  - reflexivity.
Defined.


End ExtraWitnesses.
